(** * Maktab broadcast relay: the WebSocket handlers of [server.js]

    A shallow embedding of the connection handlers of [server.js]
    (the ['message'] and ['close'] listeners installed by
    [wss.on('connection', ...)]) together with the four module-level
    variables they share, and the properties of the relay that follow
    from that code.

    Modelling conventions.
    - A socket object [ws] is represented by its identity, a [nat].
    - The closure variable [role] of each connection and the
      [readyState] field of each socket live in two finite maps keyed
      by the socket identity.
    - [listeners] is a JavaScript [Set]: insertion ordered, without
      duplicates; it is a list, [forEach] walks it from the head.
    - Every [ws.send] that reaches the wire is appended to [wire], the
      ordered log of frames the server has written.
    - Node runs each listener to completion, so a handler is one atomic
      state transformer.  The only [await] of the file precedes every
      read or write of shared state in its branch, so a [Message] event
      for a [transmitter] frame stands for the instant at which the
      continuation after [await verifyAdminToken(...)] runs. *)

From stdpp Require Import gmap strings list pretty.

Set Warnings "-register-all,-clear-no-such-hyp".
Local Open Scope string_scope.
Local Open Scope list_scope.

(** ** JavaScript values, as far as the handlers inspect them *)

Inductive value :=
| VUndefined
| VNull
| VBool (b : bool)
| VNum (n : Z)
| VStr (s : string)
| VArr (items : list value)
| VObj (props : list (string * value)).

(** Own property of an object literal produced by [JSON.parse]. *)
Fixpoint own_prop (props : list (string * value)) (k : string) : value :=
  match props with
  | [] => VUndefined
  | (k', v) :: rest => if String.eqb k' k then v else own_prop rest k
  end.

(** [v.k] for the keys the server reads ([type], [token], [role]), none
    of which is found on a prototype.  [None] is the [TypeError] raised
    when [v] is [null] or [undefined]. *)
Definition getProp (v : value) (k : string) : option value :=
  match v with
  | VUndefined | VNull => None
  | VObj props => Some (own_prop props k)
  | _ => Some VUndefined
  end.

(** [v?.k] *)
Definition optProp (v : value) (k : string) : value :=
  default VUndefined (getProp v k).

(** [!!v] *)
Definition truthy (v : value) : bool :=
  match v with
  | VUndefined | VNull => false
  | VBool b => b
  | VNum n => negb (Z.eqb n 0)
  | VStr s => negb (String.eqb s "")
  | VArr _ | VObj _ => true
  end.

(** [v === 'lit'] *)
Definition is_str (v : value) (lit : string) : bool :=
  match v with
  | VStr s => String.eqb s lit
  | _ => false
  end.

(** [a || b] *)
Definition js_or (a b : value) : value := if truthy a then a else b.

(** ** The two library calls the handlers depend on *)

(** [JSON_parse] is [JSON.parse(data.toString())], [None] when it
    throws; [jwtVerify] is jose's [jwtVerify(token, JWT_SECRET)] reduced
    to the payload it resolves with, [None] when it rejects. *)
Class Runtime := {
  JSON_parse : string → option value;
  jwtVerify : value → option value
}.

(** ** Sockets, frames and the shared state *)

Definition conn := nat.

Inductive ReadyState := CONNECTING | OPEN | CLOSING | CLOSED.

Inductive Role := RoleNull | RoleTransmitter | RoleListener.

Inductive frame :=
| TextFrame (msg : value)      (* ws.send(JSON.stringify(msg)) *)
| BinaryFrame (data : string). (* ws.send(data, { binary: true }) *)

Record snapshot := { isLive : bool; listenerCount : nat }.

Record state := mkState {
  transmitterSocket : option conn;
  listeners : list conn;
  isBroadcasting : bool;
  initSegment : option string;
  maktabBroadcast : snapshot;          (* global.__maktabBroadcast *)
  role : gmap conn Role;               (* closure variable of each connection *)
  readyState : gmap conn ReadyState;   (* ws.readyState *)
  wire : list (conn * frame)           (* frames written, oldest first *)
}.

Definition init : state :=
  mkState None [] false None {| isLive := false; listenerCount := 0 |} ∅ ∅ [].

Definition role_of (s : state) (ws : conn) : Role :=
  default RoleNull (role s !! ws).

Definition readyState_of (s : state) (ws : conn) : ReadyState :=
  default CLOSED (readyState s !! ws).

Definition is_open (s : state) (ws : conn) : bool :=
  match readyState_of s ws with OPEN => true | _ => false end.

Definition is_transmitter (s : state) (ws : conn) : bool :=
  match role_of s ws with RoleTransmitter => true | _ => false end.

(** Field updates. *)
Definition set_transmitterSocket (v : option conn) (s : state) : state :=
  mkState v (listeners s) (isBroadcasting s) (initSegment s)
          (maktabBroadcast s) (role s) (readyState s) (wire s).
Definition set_listeners (v : list conn) (s : state) : state :=
  mkState (transmitterSocket s) v (isBroadcasting s) (initSegment s)
          (maktabBroadcast s) (role s) (readyState s) (wire s).
Definition set_isBroadcasting (v : bool) (s : state) : state :=
  mkState (transmitterSocket s) (listeners s) v (initSegment s)
          (maktabBroadcast s) (role s) (readyState s) (wire s).
Definition set_initSegment (v : option string) (s : state) : state :=
  mkState (transmitterSocket s) (listeners s) (isBroadcasting s) v
          (maktabBroadcast s) (role s) (readyState s) (wire s).
Definition set_maktabBroadcast (v : snapshot) (s : state) : state :=
  mkState (transmitterSocket s) (listeners s) (isBroadcasting s) (initSegment s)
          v (role s) (readyState s) (wire s).
Definition set_role (ws : conn) (r : Role) (s : state) : state :=
  mkState (transmitterSocket s) (listeners s) (isBroadcasting s) (initSegment s)
          (maktabBroadcast s) (<[ws := r]> (role s)) (readyState s) (wire s).
Definition set_readyState (ws : conn) (r : ReadyState) (s : state) : state :=
  mkState (transmitterSocket s) (listeners s) (isBroadcasting s) (initSegment s)
          (maktabBroadcast s) (role s) (<[ws := r]> (readyState s)) (wire s).
Definition emit (ws : conn) (f : frame) (s : state) : state :=
  mkState (transmitterSocket s) (listeners s) (isBroadcasting s) (initSegment s)
          (maktabBroadcast s) (role s) (readyState s) (wire s ++ [(ws, f)]).

(** ** The [ws] socket methods

    [ws.send] on a socket that is not [OPEN] writes nothing (the
    handlers pass no callback); [ws.close] starts the closing handshake
    of an open socket and is a no-op on one already closing or closed.
    The ['close'] event, fired once the handshake ends, is the [Close]
    event below. *)
Definition ws_send (ws : conn) (f : frame) (s : state) : state :=
  if is_open s ws then emit ws f s else s.

Definition ws_close (ws : conn) (s : state) : state :=
  if is_open s ws then set_readyState ws CLOSING s else s.

(** [Set.prototype.add] and [Set.prototype.delete]. *)
Definition Set_add (ws : conn) (l : list conn) : list conn :=
  if bool_decide (ws ∈ l) then l else l ++ [ws].

Definition Set_delete (ws : conn) (l : list conn) : list conn :=
  filter (λ x, x ≠ ws) l.

(** ** Control messages written by the server *)

Definition msg_ready : value := VObj [("type", VStr "ready")].
Definition msg_broadcast_start : value := VObj [("type", VStr "broadcast-start")].
Definition msg_broadcast_end : value := VObj [("type", VStr "broadcast-end")].
Definition msg_error (m : string) : value :=
  VObj [("type", VStr "error"); ("message", VStr m)].
Definition msg_listener_count (n : nat) : value :=
  VObj [("type", VStr "listener-count"); ("count", VNum (Z.of_nat n))].

(** ** Module-level helpers of [server.js] *)

Definition broadcast (f : frame) (s : state) : state :=
  foldl (λ st ws, if is_open st ws then ws_send ws f st else st) s (listeners s).

Definition broadcastJSON (msg : value) : state → state :=
  broadcast (TextFrame msg).

Definition broadcastBinary (data : string) : state → state :=
  broadcast (BinaryFrame data).

Definition updateGlobalState (s : state) : state :=
  set_maktabBroadcast
    {| isLive := isBroadcasting s; listenerCount := length (listeners s) |} s.

Definition sendListenerCount (s : state) : state :=
  match transmitterSocket s with
  | Some t =>
      if is_open s t
      then ws_send t (TextFrame (msg_listener_count (length (listeners s)))) s
      else s
  | None => s
  end.

(** ** Events

    [Connection] is the ['connection'] event of the server, [Message]
    and [Close] the ['message'] and ['close'] events of one socket.
    [completion] records how the promise returned by the async
    ['message'] listener settles. *)

Inductive event :=
| Connection (ws : conn)
| Message (ws : conn) (data : string) (isBinary : bool)
| Close (ws : conn).

Inductive completion := Returned | Rejected.

(** ** The handlers *)

Section Handlers.
Context `{Runtime}.

Definition verifyAdminToken (token : value) : value :=
  match jwtVerify token with
  | Some payload => if is_str (optProp payload "role") "admin" then payload else VNull
  | None => VNull
  end.

(** The transmitter branch after [await verifyAdminToken(...)]. *)
Definition register_transmitter (ws : conn) (payload : value) (s : state) : state :=
  if negb (truthy payload) then
    ws_close ws (ws_send ws (TextFrame (msg_error "Unauthorized")) s)
  else
    let s1 :=
      match transmitterSocket s with
      | Some old => if is_open s old then ws_close old s else s
      | None => s
      end in
    let s2 := set_role ws RoleTransmitter s1 in
    let s3 := set_transmitterSocket (Some ws) s2 in
    let s4 := set_isBroadcasting true s3 in
    let s5 := set_initSegment None s4 in
    let s6 := ws_send ws (TextFrame msg_ready) s5 in
    let s7 := broadcastJSON msg_broadcast_start s6 in
    updateGlobalState s7.

Definition register_listener (ws : conn) (s : state) : state :=
  let s1 := set_role ws RoleListener s in
  let s2 := set_listeners (Set_add ws (listeners s1)) s1 in
  let s3 := updateGlobalState s2 in
  let s4 := sendListenerCount s3 in
  if isBroadcasting s4 then
    let s5 := ws_send ws (TextFrame msg_broadcast_start) s4 in
    match initSegment s5 with
    | Some seg => ws_send ws (BinaryFrame seg) s5
    | None => s5
    end
  else ws_send ws (TextFrame msg_broadcast_end) s4.

(** The three assignments, the announcement and the snapshot shared
    by the [stop] branch and the transmitter branch of ['close']. *)
Definition end_broadcast (s : state) : state :=
  let s1 := set_isBroadcasting false s in
  let s2 := set_transmitterSocket None s1 in
  let s3 := set_initSegment None s2 in
  let s4 := broadcastJSON msg_broadcast_end s3 in
  updateGlobalState s4.

Definition stop_broadcast (ws : conn) (s : state) : state :=
  ws_close ws (end_broadcast s).

(** [ws.on('message', async (data, isBinary) => ...)] *)
Definition on_message (ws : conn) (data : string) (isBinary : bool)
           (s : state) : completion * state :=
  if isBinary then
    if negb (is_transmitter s ws) then (Returned, s)
    else
      let s1 := match initSegment s with
                | None => set_initSegment (Some data) s
                | Some _ => s
                end in
      (Returned, broadcastBinary data s1)
  else
    match JSON_parse data with
    | None => (Returned, ws_send ws (TextFrame (msg_error "Invalid JSON")) s)
    | Some msg =>
        match getProp msg "type" with
        | None => (Rejected, s)
        | Some ty =>
            if is_str ty "transmitter" then
              (* msg.type did not throw, so neither does msg.token *)
              let payload :=
                verifyAdminToken (js_or (optProp msg "token") (VStr "")) in
              (Returned, register_transmitter ws payload s)
            else if is_str ty "listener" then
              (Returned, register_listener ws s)
            else if is_str ty "stop" && is_transmitter s ws then
              (Returned, stop_broadcast ws s)
            else (Returned, s)
        end
    end.

(** [ws.on('close', () => ...)] *)
Definition on_close (ws : conn) (s : state) : state :=
  match role_of s ws with
  | RoleTransmitter => end_broadcast s
  | RoleListener =>
      sendListenerCount
        (updateGlobalState (set_listeners (Set_delete ws (listeners s)) s))
  | RoleNull => s
  end.

(** [wss.on('connection', (ws) => { let role = null; ... })]: a fresh
    closure, on a socket that is open. *)
Definition on_connection (ws : conn) (s : state) : state :=
  set_role ws RoleNull (set_readyState ws OPEN s).

(** ** Runs *)

(** A rejected handler has changed nothing by the time it throws; the
    run goes on from the state it left. *)
Definition step (s : state) (e : event) : state :=
  match e with
  | Connection ws => on_connection ws s
  | Message ws data isBinary => (on_message ws data isBinary s).2
  | Close ws => on_close ws (set_readyState ws CLOSED s)
  end.

Definition run (t : list event) (s : state) : state := foldl step s t.

(** Frames written to [ws], oldest first. *)
Definition received (ws : conn) (s : state) : list frame :=
  (filter (λ p, p.1 = ws) (wire s)).*2.

(** Frames written by one step. *)
Definition written (s : state) (e : event) : list (conn * frame) :=
  drop (length (wire s)) (wire (step s e)).

End Handlers.

(** [fs] appended to the log, nothing else touched. *)
Definition emits (fs : list (conn * frame)) (s : state) : state :=
  mkState (transmitterSocket s) (listeners s) (isBroadcasting s) (initSegment s)
          (maktabBroadcast s) (role s) (readyState s) (wire s ++ fs).

(** The frames one fan-out writes: one per open listener, in set order. *)
Definition fanout (f : frame) (s : state) : list (conn * frame) :=
  (λ ws, (ws, f)) <$> filter (λ ws, is_open s ws) (listeners s).

(** The frame [sendListenerCount] writes, if any. *)
Definition count_frames (s : state) : list (conn * frame) :=
  match transmitterSocket s with
  | Some t =>
      if is_open s t
      then [(t, TextFrame (msg_listener_count (length (listeners s))))]
      else []
  | None => []
  end.

(** ** A concrete runtime for the examples

    [sample_parse] agrees with [JSON.parse] on the texts the examples
    send; [sample_verify] accepts one token signed for the admin role
    and one signed for another role, and rejects everything else. *)

Definition dq : string := String (Ascii.ascii_of_nat 34) "".
Definition quoted (s : string) : string := (dq ++ s ++ dq)%string.
Definition field (k v : string) : string :=
  (quoted k ++ ":" ++ quoted v)%string.

Definition txt_listener : string :=
  ("{" ++ field "type" "listener" ++ "}")%string.
Definition txt_stop : string := ("{" ++ field "type" "stop" ++ "}")%string.
Definition txt_ping : string := ("{" ++ field "type" "ping" ++ "}")%string.
Definition txt_transmitter (token : string) : string :=
  ("{" ++ field "type" "transmitter" ++ "," ++ field "token" token ++ "}")%string.
Definition txt_null : string := "null".
Definition txt_garbage : string := "{type:".

Definition sample_texts : list (string * value) :=
  [ (txt_listener, VObj [("type", VStr "listener")]);
    (txt_stop, VObj [("type", VStr "stop")]);
    (txt_ping, VObj [("type", VStr "ping")]);
    (txt_transmitter "good",
       VObj [("type", VStr "transmitter"); ("token", VStr "good")]);
    (txt_transmitter "guest",
       VObj [("type", VStr "transmitter"); ("token", VStr "guest")]);
    (txt_transmitter "forged",
       VObj [("type", VStr "transmitter"); ("token", VStr "forged")]);
    (txt_null, VNull) ].

Fixpoint sample_parse_in (table : list (string * value)) (data : string)
  : option value :=
  match table with
  | [] => None
  | (txt, v) :: rest =>
      if String.eqb txt data then Some v else sample_parse_in rest data
  end.

Definition sample_parse : string → option value := sample_parse_in sample_texts.

Definition sample_verify (token : value) : option value :=
  if is_str token "good" then Some (VObj [("role", VStr "admin")])
  else if is_str token "guest" then Some (VObj [("role", VStr "guest")])
  else None.

#[export] Instance sample_runtime : Runtime :=
  {| JSON_parse := sample_parse; jwtVerify := sample_verify |}.

(** ** Vocabulary for the statements *)

(** What a text frame asks for, read off the tests of [on_message] in
    the order the handler makes them. *)
Inductive request :=
| Malformed                              (* JSON.parse threw *)
| Untyped                                (* msg.type threw *)
| RegisterTransmitter (payload : value)  (* result of verifyAdminToken *)
| RegisterListener
| Stop
| Unrecognized.

Definition request_of `{Runtime} (data : string) : request :=
  match JSON_parse data with
  | None => Malformed
  | Some msg =>
      match getProp msg "type" with
      | None => Untyped
      | Some ty =>
          if is_str ty "transmitter" then
            RegisterTransmitter
              (verifyAdminToken (js_or (optProp msg "token") (VStr "")))
          else if is_str ty "listener" then RegisterListener
          else if is_str ty "stop" then Stop
          else Unrecognized
      end
  end.

(** The broadcast state proper: the four module variables and the
    published snapshot. *)
Definition broadcast_state (s : state)
  : option conn * list conn * bool * option string * snapshot :=
  (transmitterSocket s, listeners s, isBroadcasting s, initSegment s,
   maktabBroadcast s).

(** [e] is a register-as-transmitter frame of [ws] whose token verifies. *)
Definition wins_transmitter `{Runtime} (ws : conn) (e : event) : bool :=
  match e with
  | Message ws' data false =>
      bool_decide (ws' = ws) &&
      match request_of data with
      | RegisterTransmitter payload => truthy payload
      | _ => false
      end
  | _ => false
  end.

(** [e] is a register-as-listener frame of [ws]. *)
Definition joins_as_listener `{Runtime} (ws : conn) (e : event) : bool :=
  match e with
  | Message ws' data false =>
      bool_decide (ws' = ws) &&
      match request_of data with RegisterListener => true | _ => false end
  | _ => false
  end.

(** The frames a joining listener is greeted with. *)
Definition greeting (ws : conn) (s : state) : list (conn * frame) :=
  if is_open s ws then
    if isBroadcasting s then
      (ws, TextFrame msg_broadcast_start) ::
      match initSegment s with
      | Some seg => [(ws, BinaryFrame seg)]
      | None => []
      end
    else [(ws, TextFrame msg_broadcast_end)]
  else [].

(** The state left by the eviction test of the transmitter branch. *)
Definition evicted (s : state) : state :=
  match transmitterSocket s with
  | Some old => ws_close old s
  | None => s
  end.

(** The listeners a fan-out reaches. *)
Definition open_listeners (s : state) : list conn :=
  filter (λ ws, is_open s ws) (listeners s).

(** ** Example runs on the sample runtime

    Socket 1 is a listener, sockets 2 and 3 are two administrators; 3
    registers while 2 is on air. *)
Definition takeover : list event :=
  [ Connection 1; Message 1 txt_listener false;
    Connection 2; Message 2 (txt_transmitter "good") false;
    Message 2 "X" true;
    Connection 3; Message 3 (txt_transmitter "good") false ].

(** A transmitter that then also registers as listener. *)
Definition both_roles : list event :=
  [ Connection 1; Message 1 (txt_transmitter "good") false;
    Message 1 txt_listener false ].

(** The published snapshot agrees with the variables it is taken from. *)
Definition snapshot_current (s : state) : Prop :=
  maktabBroadcast s =
  {| isLive := isBroadcasting s; listenerCount := length (listeners s) |}.

(** No socket is both the registered transmitter and a listener. *)
Definition one_role_per_connection `{Runtime} : Prop :=
  ∀ t ws,
    ¬ (transmitterSocket (run t init) = Some ws ∧ ws ∈ listeners (run t init)).

(** ** The HTTP side: [lib/auth.js] and the API routes

    The routes run in the same process as the relay and read the
    globals [server.js] sets at boot.  A [Runtime] stands for
    [jwtVerify] under one key.  [server.js] fixes its key once, when the
    module loads; [lib/auth.js] reads the environment at every call.  So
    the functions of [lib/auth.js] take the [Runtime] of the key in
    force at the call, and a statement that relates them to
    [verifyAdminToken] takes one [Runtime] for each file.  An object
    used as a key-value store (the timings) is a finite map. *)

Record Req := mkReq {
  method : string;                 (* req.method *)
  authorization : option string;   (* req.headers.authorization *)
  body : value                     (* req.body *)
}.

(** [res.status(n).end()] answers without a body, [res.status(n).json(v)]
    with [v]. *)
Record Res (A : Type) := mkRes {
  status : nat;
  json : option A
}.
Arguments mkRes {A} _ _.
Arguments status {A} _.
Arguments json {A} _.

(** [s.startsWith(p)] and [s.slice(n)] for [n] not negative. *)
Definition startsWith (s p : string) : bool := String.prefix p s.

Fixpoint slice (n : nat) (s : string) : string :=
  match n, s with
  | O, _ => s
  | S n', String _ rest => slice n' rest
  | S _, EmptyString => EmptyString
  end.

(** [process.env.NAME || fallback] *)
Definition env_or (v : option string) (fallback : string) : string :=
  match v with
  | Some s => if String.eqb s "" then fallback else s
  | None => fallback
  end.

(** What the login route depends on: jose's [SignJWT ... sign] with the
    header and the expiry [signToken] sets, and the two environment
    variables. *)
Class Site := {
  SignJWT : value → string;
  ADMIN_USERNAME : option string;
  ADMIN_PASSWORD : option string
}.

Definition signToken `{Site} (payload : value) : string := SignJWT payload.

(** [lib/auth.js]; a JavaScript [null] result of [getTokenFromRequest]
    is [None]. *)
Definition verifyToken `{Runtime} (token : string) : value :=
  match jwtVerify (VStr token) with
  | Some payload => payload
  | None => VNull
  end.

Definition getTokenFromRequest (req : Req) : option string :=
  let auth := default "" (authorization req) in
  if startsWith auth "Bearer " then Some (slice 7 auth) else None.

Definition requireAdmin `{Runtime} (req : Req) : value :=
  match getTokenFromRequest req with
  | None => VNull
  | Some token =>
      if String.eqb token "" then VNull
      else
        let payload := verifyToken token in
        if negb (truthy payload) || negb (is_str (optProp payload "role") "admin")
        then VNull
        else payload
  end.

(** [pages/api/auth/login.js] *)
Definition login_handler `{Site} (req : Req) : Res value :=
  if negb (String.eqb (method req) "POST") then mkRes 405 None
  else
    let b := js_or (body req) (VObj []) in
    let username := optProp b "username" in
    let password := optProp b "password" in
    let validUser := env_or ADMIN_USERNAME "admin" in
    let validPass := env_or ADMIN_PASSWORD "maktab2024" in
    if is_str username validUser && is_str password validPass then
      let token :=
        signToken (VObj [("role", VStr "admin"); ("username", username)]) in
      mkRes 200 (Some (VObj [("token", VStr token); ("username", username)]))
    else mkRes 401 (Some (VObj [("error", VStr "Invalid credentials")])).

(** [pages/api/broadcast-status.js]; [g] is [global.__maktabBroadcast],
    [None] when nothing has set it. *)
Definition snapshot_json (b : snapshot) : value :=
  VObj [("isLive", VBool (isLive b));
        ("listenerCount", VNum (Z.of_nat (listenerCount b)))].

Definition broadcast_status_handler (req : Req) (g : option snapshot) : Res value :=
  if negb (String.eqb (method req) "GET") then mkRes 405 None
  else
    mkRes 200
      (Some (snapshot_json (default {| isLive := false; listenerCount := 0 |} g))).

(** Own enumerable properties copied by an object spread [...v]: the
    properties of an object, the indexed elements of an array or of a
    string, nothing for the other values.  JavaScript indexes a string
    by UTF-16 code unit; [chars] has one entry per character of the
    model string, which is the same for a string of ASCII characters
    only.  No statement below reads the spread of a string. *)
Fixpoint chars (s : string) : list value :=
  match s with
  | EmptyString => []
  | String c rest => VStr (String c EmptyString) :: chars rest
  end.

Definition indexed (l : list value) : gmap string value :=
  list_to_map (imap (λ i x, (pretty i, x)) l).

Definition spread (v : value) : gmap string value :=
  match v with
  | VObj props => list_to_map props
  | VArr items => indexed items
  | VStr s => indexed (chars s)
  | _ => ∅
  end.

(** The timings route (second file of [unnamed/part_000]); [g] is
    [global.__maktabTimings], [now] the value of
    [new Date().toISOString()].  The result is the response and the
    global after the call. *)
Definition timings_handler `{Runtime} (now : string) (req : Req)
           (g : option (gmap string value))
  : Res (gmap string value) * option (gmap string value) :=
  if String.eqb (method req) "GET" then
    (mkRes 200 (Some (default ∅ g)), g)
  else if String.eqb (method req) "POST" then
    let admin := requireAdmin req in
    if negb (truthy admin) then
      (mkRes 401 (Some {["error" := VStr "Unauthorized"]}), g)
    else
      let g' := <["updatedAt" := VStr now]> (spread (body req) ∪ default ∅ g) in
      (mkRes 200 (Some g'), Some g')
  else (mkRes 405 None, g).

(** The timings [server.js] installs at boot when none are set. *)
Definition boot_timings (now : string) : gmap string value :=
  list_to_map
    [ ("fajr", VStr "05:15"); ("sunrise", VStr "06:40");
      ("dhuhr", VStr "12:30"); ("asr", VStr "15:45");
      ("maghrib", VStr "18:20"); ("isha", VStr "19:45");
      ("jumuah", VStr "13:00"); ("sehri", VStr "04:45");
      ("iftar", VStr "18:18"); ("showRamadan", VBool false);
      ("updatedAt", VStr now) ].

(** A sample site: for a payload with the admin role the signer issues
    the token [sample_verify] accepts as admin; the user name is the
    default one and the password variable is set but empty. *)
Definition sample_sign (payload : value) : string :=
  if is_str (optProp payload "role") "admin" then "good" else "guest".

#[export] Instance sample_site : Site :=
  {| SignJWT := sample_sign; ADMIN_USERNAME := None; ADMIN_PASSWORD := Some "" |}.

(** [d] was sent as a binary frame by a socket that held the
    transmitter role at that moment of the run [t]. *)
Definition sent_by_transmitter `{Runtime} (t : list event) (d : string) : Prop :=
  ∃ t1 tx t2,
    t = t1 ++ Message tx d true :: t2 ∧
    role_of (run t1 init) tx = RoleTransmitter.

(** [e] is an event of socket [ws]. *)
Definition event_of (ws : conn) (e : event) : Prop :=
  match e with
  | Connection ws' | Message ws' _ _ | Close ws' => ws' = ws
  end.

(** The live flag is on exactly when the transmitter slot is taken. *)
Definition slot_tracks_live (s : state) : Prop :=
  match transmitterSocket s with
  | Some _ => isBroadcasting s = true
  | None => isBroadcasting s = false
  end.

(** The sample verifier as [lib/auth.js] sees it, under the same key as
    [sample_runtime]; it parses nothing, the routes get parsed bodies. *)
Definition auth_runtime : Runtime :=
  {| JSON_parse := λ _, None; jwtVerify := sample_verify |}.

(** Sample requests: a login with the default credentials, and a timings
    update that also tries to set [updatedAt]. *)
Definition sample_login : Req :=
  mkReq "POST" None
        (VObj [("username", VStr "admin"); ("password", VStr "maktab2024")]).

Definition sample_update : Req :=
  mkReq "POST" (Some "Bearer good")
        (VObj [("fajr", VStr "05:00"); ("updatedAt", VStr "forged")]).

(** ** Basic facts about the helpers *)

Section Facts.
Context `{Runtime}.

Lemma emits_nil s : emits [] s = s.
Proof. destruct s; unfold emits; simpl. by rewrite app_nil_r. Qed.

Lemma emits_emits a b s : emits b (emits a s) = emits (a ++ b) s.
Proof. unfold emits; simpl. by rewrite app_assoc. Qed.

Lemma is_open_emits fs s ws : is_open (emits fs s) ws = is_open s ws.
Proof. reflexivity. Qed.

Lemma ws_send_emits ws f s :
  ws_send ws f s = emits (if is_open s ws then [(ws, f)] else []) s.
Proof.
  unfold ws_send. destruct (is_open s ws); [reflexivity|].
  symmetry; apply emits_nil.
Qed.

Lemma broadcast_fold f s l acc :
  foldl (λ st ws, if is_open st ws then ws_send ws f st else st) (emits acc s) l
  = emits (acc ++ ((λ ws, (ws, f)) <$> filter (λ ws, is_open s ws) l)) s.
Proof.
  revert acc. induction l as [|ws l IH]; intros acc; simpl.
  - by rewrite app_nil_r.
  - rewrite filter_cons, ws_send_emits, is_open_emits.
    destruct (is_open s ws) eqn:Hop; simpl.
    + rewrite emits_emits, IH. by rewrite <- app_assoc.
    + apply IH.
Qed.

Lemma broadcast_emits f s : broadcast f s = emits (fanout f s) s.
Proof.
  unfold broadcast, fanout.
  rewrite <- (emits_nil s) at 1. by rewrite broadcast_fold.
Qed.

Lemma sendListenerCount_emits s :
  sendListenerCount s = emits (count_frames s) s.
Proof.
  unfold sendListenerCount, count_frames.
  destruct (transmitterSocket s) as [t|]; [|by rewrite emits_nil].
  destruct (is_open s t) eqn:Hop; [|by rewrite emits_nil].
  by rewrite ws_send_emits, Hop.
Qed.

Lemma verifyAdminToken_null token :
  truthy (verifyAdminToken token) = false ↔ verifyAdminToken token = VNull.
Proof.
  unfold verifyAdminToken.
  destruct (jwtVerify token) as [payload|]; [|done].
  destruct payload; simpl; try done.
  destruct (is_str _ "admin"); simpl; split; intros Hx;
    try discriminate Hx; reflexivity.
Qed.

Lemma on_message_text ws data s :
  on_message ws data false s =
  match request_of data with
  | Malformed => (Returned, ws_send ws (TextFrame (msg_error "Invalid JSON")) s)
  | Untyped => (Rejected, s)
  | RegisterTransmitter payload => (Returned, register_transmitter ws payload s)
  | RegisterListener => (Returned, register_listener ws s)
  | Stop => (Returned, if is_transmitter s ws then stop_broadcast ws s else s)
  | Unrecognized => (Returned, s)
  end.
Proof.
  unfold on_message, request_of.
  destruct (JSON_parse data) as [msg|]; [|done].
  destruct (getProp msg "type") as [ty|]; [|done].
  destruct (is_str ty "transmitter"); [done|].
  destruct (is_str ty "listener"); [done|].
  destruct (is_str ty "stop"); simpl; [|done].
  by destruct (is_transmitter s ws).
Qed.

Lemma ws_close_idle ws s : is_open s ws = false → ws_close ws s = s.
Proof. unfold ws_close. by intros ->. Qed.

Lemma evicted_eq s :
  match transmitterSocket s with
  | Some old => if is_open s old then ws_close old s else s
  | None => s
  end = evicted s.
Proof.
  unfold evicted. destruct (transmitterSocket s) as [old|]; [|done].
  destruct (is_open s old) eqn:Hop; [done|]. by rewrite ws_close_idle.
Qed.

(** *** The handlers in closed form *)

Lemma end_broadcast_eq s :
  end_broadcast s =
  mkState None (listeners s) false None
          {| isLive := false; listenerCount := length (listeners s) |}
          (role s) (readyState s)
          (wire s ++ fanout (TextFrame msg_broadcast_end) s).
Proof.
  unfold end_broadcast, broadcastJSON. by rewrite broadcast_emits.
Qed.

Lemma greeting_eq ws fs s :
  (if isBroadcasting (emits fs s) then
     let s5 := ws_send ws (TextFrame msg_broadcast_start) (emits fs s) in
     match initSegment s5 with
     | Some seg => ws_send ws (BinaryFrame seg) s5
     | None => s5
     end
   else ws_send ws (TextFrame msg_broadcast_end) (emits fs s))
  = emits (fs ++ greeting ws s) s.
Proof.
  unfold greeting. cbv zeta. rewrite !ws_send_emits, !is_open_emits.
  change (isBroadcasting (emits fs s)) with (isBroadcasting s).
  destruct (isBroadcasting s).
  - change (initSegment (emits _ (emits fs s))) with (initSegment s).
    destruct (initSegment s) as [seg|].
    + rewrite ws_send_emits, !is_open_emits, !emits_emits.
      destruct (is_open s ws); simpl; by rewrite ?app_nil_r.
    + rewrite emits_emits. by destruct (is_open s ws).
  - rewrite emits_emits. by destruct (is_open s ws).
Qed.

Lemma register_listener_eq ws s :
  register_listener ws s =
  let l := Set_add ws (listeners s) in
  let s' := mkState (transmitterSocket s) l (isBroadcasting s) (initSegment s)
                    {| isLive := isBroadcasting s; listenerCount := length l |}
                    (<[ws := RoleListener]> (role s)) (readyState s) (wire s) in
  emits (count_frames s' ++ greeting ws s') s'.
Proof.
  unfold register_listener. cbv zeta.
  rewrite sendListenerCount_emits. apply greeting_eq.
Qed.

Lemma register_transmitter_reject ws payload s :
  truthy payload = false →
  register_transmitter ws payload s =
  ws_close ws (emits (if is_open s ws
                      then [(ws, TextFrame (msg_error "Unauthorized"))]
                      else []) s).
Proof.
  intros Hp. unfold register_transmitter. rewrite Hp; simpl.
  by rewrite ws_send_emits.
Qed.

Lemma register_transmitter_accept ws payload s :
  truthy payload = true →
  register_transmitter ws payload s =
  let e := evicted s in
  mkState (Some ws) (listeners s) true None
          {| isLive := true; listenerCount := length (listeners s) |}
          (<[ws := RoleTransmitter]> (role s)) (readyState e)
          (wire s ++ (if is_open e ws then [(ws, TextFrame msg_ready)] else [])
                  ++ fanout (TextFrame msg_broadcast_start) e).
Proof.
  intros Hp. unfold register_transmitter. rewrite Hp; simpl.
  rewrite evicted_eq. unfold broadcastJSON.
  rewrite broadcast_emits, ws_send_emits.
  assert (listeners (evicted s) = listeners s ∧ wire (evicted s) = wire s
          ∧ role (evicted s) = role s) as (Hl & Hw & Hr).
  { unfold evicted, ws_close.
    destruct (transmitterSocket s) as [old|]; [|done].
    by destruct (is_open s old). }
  unfold updateGlobalState, set_maktabBroadcast, emits, fanout; simpl.
  rewrite Hl, Hw, Hr, <- app_assoc. reflexivity.
Qed.

Lemma stop_broadcast_eq ws s :
  stop_broadcast ws s =
  let rs := if is_open s ws then <[ws := CLOSING]> (readyState s)
            else readyState s in
  mkState None (listeners s) false None
          {| isLive := false; listenerCount := length (listeners s) |}
          (role s) rs (wire s ++ fanout (TextFrame msg_broadcast_end) s).
Proof.
  unfold stop_broadcast. rewrite end_broadcast_eq. unfold ws_close.
  change (is_open (mkState _ _ _ _ _ _ _ _) ws) with (is_open s ws).
  by destruct (is_open s ws).
Qed.

Lemma on_close_listener_eq ws s :
  role_of s ws = RoleListener →
  on_close ws s =
  let l := Set_delete ws (listeners s) in
  let s' := mkState (transmitterSocket s) l (isBroadcasting s) (initSegment s)
                    {| isLive := isBroadcasting s; listenerCount := length l |}
                    (role s) (readyState s) (wire s) in
  emits (count_frames s') s'.
Proof.
  intros Hr. unfold on_close. rewrite Hr, sendListenerCount_emits.
  reflexivity.
Qed.

Lemma on_message_binary ws data s :
  on_message ws data true s =
  (Returned,
   if is_transmitter s ws then
     let seg := match initSegment s with
                | None => Some data
                | Some seg => Some seg
                end in
     mkState (transmitterSocket s) (listeners s) (isBroadcasting s) seg
             (maktabBroadcast s) (role s) (readyState s)
             (wire s ++ fanout (BinaryFrame data) s)
   else s).
Proof.
  unfold on_message, broadcastBinary.
  destruct (is_transmitter s ws); simpl; [|done].
  rewrite broadcast_emits. destruct s as [tx l b [seg|] snap ro rs w]; done.
Qed.

Lemma written_app s e fs : wire (step s e) = wire s ++ fs → written s e = fs.
Proof. unfold written. intros ->. by rewrite drop_app_length. Qed.

End Facts.

(** ** The sample runtime at work *)

Example good_token_verifies :
  request_of (txt_transmitter "good")
  = RegisterTransmitter (VObj [("role", VStr "admin")]).
Proof. reflexivity. Qed.

(** A token that verifies but is signed for another role is refused
    like a forged one. *)
Example guest_token_is_refused :
  request_of (txt_transmitter "guest") = RegisterTransmitter VNull ∧
  request_of (txt_transmitter "forged") = RegisterTransmitter VNull.
Proof. split; reflexivity. Qed.

Example ping_is_ignored :
  step (run takeover init) (Message 1 txt_ping false) = run takeover init.
Proof. reflexivity. Qed.

Example first_frame_is_the_init_segment :
  initSegment (run (takeover ++ [Message 3 "A" true; Message 3 "B" true]) init)
  = Some "A".
Proof. reflexivity. Qed.

(** A listener that joins a live broadcast after its first frame is
    greeted with broadcast-start and that frame. *)
Example late_joiner_gets_init_segment :
  received 4
    (run (takeover ++ [Message 3 "A" true; Message 3 "B" true;
                       Connection 4; Message 4 txt_listener false;
                       Message 3 "C" true]) init)
  = [ TextFrame msg_broadcast_start; BinaryFrame "A"; BinaryFrame "C" ].
Proof. reflexivity. Qed.

(** ** Error replies *)

Section ErrorReplies.
Context `{Runtime}.

(** C4. A text frame that [JSON.parse] rejects, on any connection and in
    any role, is answered with the error message [Invalid JSON] on that
    connection; the handler returns normally, leaves every socket's
    ready state and role as they were (the connection stays open) and
    changes no part of the broadcast state: transmitter slot, listener
    set, live flag, init segment and snapshot. *)
Theorem malformed_control_payload_is_recoverable ws data s :
  JSON_parse data = None →
  (on_message ws data false s).1 = Returned ∧
  let s' := step s (Message ws data false) in
  wire s' = wire s ++ (if is_open s ws
                       then [(ws, TextFrame (msg_error "Invalid JSON"))]
                       else []) ∧
  readyState s' = readyState s ∧
  role s' = role s ∧
  broadcast_state s' = broadcast_state s.
Proof.
  intros Hparse. unfold step, on_message. rewrite Hparse; simpl.
  rewrite ws_send_emits. done.
Qed.

(** C3. A register-as-transmitter frame whose token fails verification
    ([verifyAdminToken] yields a falsy payload, that is [null]) makes
    the server write the error message [Unauthorized] to the connection
    and close it; isBroadcasting, transmitterSocket, initSegment, the
    listener set and the published snapshot are unchanged, as are the
    roles and every other socket. *)
Theorem unauthorized_transmitter_is_refused ws data payload s :
  request_of data = RegisterTransmitter payload →
  truthy payload = false →
  (on_message ws data false s).1 = Returned ∧
  let s' := step s (Message ws data false) in
  wire s' = wire s ++ (if is_open s ws
                       then [(ws, TextFrame (msg_error "Unauthorized"))]
                       else []) ∧
  is_open s' ws = false ∧
  (is_open s ws = true → readyState_of s' ws = CLOSING) ∧
  (∀ other, other ≠ ws → readyState_of s' other = readyState_of s other) ∧
  role s' = role s ∧
  broadcast_state s' = broadcast_state s.
Proof.
  intros Hreq Hp. unfold step. rewrite on_message_text, Hreq; simpl.
  rewrite register_transmitter_reject by done.
  unfold ws_close. rewrite is_open_emits.
  unfold is_open, readyState_of.
  destruct (default CLOSED (readyState s !! ws)) eqn:Hrs; simpl;
    rewrite ?Hrs, ?lookup_insert_eq, ?app_nil_r; simpl;
    repeat split; try done; intros other Hne; by rewrite lookup_insert_ne.
Qed.

End ErrorReplies.

Lemma malformed_control_payload_is_recoverable_witness :
  wire (step (run [Connection 7] init) (Message 7 txt_garbage false))
  = [(7, TextFrame (msg_error "Invalid JSON"))].
Proof.
  pose proof (malformed_control_payload_is_recoverable
                7 txt_garbage (run [Connection 7] init) eq_refl) as Hw.
  exact (proj1 (proj2 Hw)).
Defined.

Lemma unauthorized_transmitter_is_refused_witness :
  let s := run takeover init in
  let s' := step s (Message 3 (txt_transmitter "forged") false) in
  wire s' = wire s ++ [(3, TextFrame (msg_error "Unauthorized"))] ∧
  is_open s' 3 = false ∧
  broadcast_state s' = broadcast_state s.
Proof.
  pose proof (unfold_unauth :=
    unauthorized_transmitter_is_refused 3 (txt_transmitter "forged") VNull
      (run takeover init) eq_refl eq_refl).
  destruct unfold_unauth as (_ & Hw & Hc & _ & _ & _ & Hb).
  exact (conj Hw (conj Hc Hb)).
Defined.

(** ** One step, case by case *)

Ltac step_cases s e :=
  let ws := fresh "ws" in
  let data := fresh "data" in
  let payload := fresh "payload" in
  destruct e as [ws|ws data [|]|ws]; unfold step;
  [ unfold on_connection
  | rewrite on_message_binary; destruct (is_transmitter s ws) eqn:?
  | rewrite on_message_text;
    destruct (request_of data) as [| |payload| | |] eqn:?;
    [ rewrite ws_send_emits
    |
    | destruct (truthy payload) eqn:?;
      [ rewrite register_transmitter_accept by done
      | rewrite register_transmitter_reject by done;
        unfold ws_close; rewrite is_open_emits; destruct (is_open s ws) eqn:? ]
    | rewrite register_listener_eq
    | destruct (is_transmitter s ws) eqn:?; [rewrite stop_broadcast_eq|]
    | ]
  | unfold on_close;
    change (role_of (set_readyState ws CLOSED s) ws) with (role_of s ws);
    destruct (role_of s ws) eqn:?;
    [ | rewrite end_broadcast_eq | rewrite sendListenerCount_emits ] ];
  cbn [fst snd].

Section Steps.
Context `{Runtime}.

Lemma snapshot_current_step s e :
  snapshot_current s → snapshot_current (step s e).
Proof.
  unfold snapshot_current. intros Hs. step_cases s e; simpl; done.
Qed.

Lemma snapshot_current_run t s :
  snapshot_current s → snapshot_current (run t s).
Proof.
  revert s. induction t as [|e t IH]; intros s Hs; simpl; [done|].
  apply IH, snapshot_current_step, Hs.
Qed.

Lemma count_frame_written s e ws n :
  (ws, TextFrame (msg_listener_count n)) ∈ written s e →
  n = length (listeners (step s e)) ∧ transmitterSocket (step s e) = Some ws.
Proof.
  unfold written. step_cases s e; simpl;
    rewrite ?drop_all, ?drop_app_length;
    unfold fanout, count_frames, greeting; simpl;
    repeat case_match; set_unfold; naive_solver.
Qed.

Lemma Set_add_NoDup ws l : NoDup l → NoDup (Set_add ws l).
Proof.
  intros Hl. unfold Set_add. case_bool_decide; [done|].
  apply NoDup_app. repeat split; [done| |apply NoDup_singleton].
  intros x Hx ->%list_elem_of_singleton. done.
Qed.

Lemma listeners_NoDup_step s e :
  NoDup (listeners s) → NoDup (listeners (step s e)).
Proof.
  intros Hs. step_cases s e; simpl; try done.
  - by apply Set_add_NoDup.
  - by apply NoDup_filter.
Qed.

Lemma listeners_NoDup_run t s :
  NoDup (listeners s) → NoDup (listeners (run t s)).
Proof.
  revert s. induction t as [|e t IH]; intros s Hs; simpl; [done|].
  apply IH, listeners_NoDup_step, Hs.
Qed.

Lemma transmitter_slot_step s e ws :
  transmitterSocket (step s e) = Some ws →
  transmitterSocket s = Some ws ∨ wins_transmitter ws e = true.
Proof.
  unfold wins_transmitter. step_cases s e; simpl; try done; try by left.
  intros [= ->]. right. by rewrite bool_decide_true.
Qed.

Lemma listener_member_step s e ws :
  ws ∈ listeners (step s e) →
  ws ∈ listeners s ∨ joins_as_listener ws e = true.
Proof.
  unfold joins_as_listener. step_cases s e; simpl; try by left.
  - unfold Set_add. case_bool_decide; [by left|].
    rewrite elem_of_app, list_elem_of_singleton.
    intros [?| ->]; [by left|right]. by rewrite bool_decide_true.
  - unfold Set_delete. rewrite list_elem_of_filter. intros [_ ?]. by left.
Qed.

Lemma transmitter_slot_run t s ws :
  transmitterSocket (run t s) = Some ws →
  transmitterSocket s = Some ws ∨ existsb (wins_transmitter ws) t = true.
Proof.
  revert s. induction t as [|e t IH]; intros s; simpl; [by left|].
  intros Ht. destruct (IH _ Ht) as [Hs| ->]; [|right; apply orb_true_r].
  destruct (transmitter_slot_step _ _ _ Hs) as [?| ->]; [by left|by right].
Qed.

Lemma listener_member_run t s ws :
  ws ∈ listeners (run t s) →
  ws ∈ listeners s ∨ existsb (joins_as_listener ws) t = true.
Proof.
  revert s. induction t as [|e t IH]; intros s; simpl; [by left|].
  intros Ht. destruct (IH _ Ht) as [Hs| ->]; [|right; apply orb_true_r].
  destruct (listener_member_step _ _ _ Hs) as [?| ->]; [by left|by right].
Qed.

End Steps.

(** ** Registry properties *)

Section Registry.
Context `{Runtime}.

(** C6. In every state reached from the initial one, whatever the
    sequence of joins, leaves and other events, the listener list has
    no duplicates (its length is the size of the set) and the published
    snapshot carries the current live flag and the current size of the
    listener set; and every listener-count message written by a step is
    written to the registered transmitter and carries the size the
    listener set has when the message is produced. *)
Theorem listener_count_matches_listener_set :
  (∀ t, let s := run t init in
        NoDup (listeners s) ∧
        maktabBroadcast s =
        {| isLive := isBroadcasting s;
           listenerCount := length (listeners s) |}) ∧
  (∀ s e ws n,
      (ws, TextFrame (msg_listener_count n)) ∈ written s e →
      n = length (listeners (step s e)) ∧
      transmitterSocket (step s e) = Some ws).
Proof.
  split.
  - intros t. split.
    + apply listeners_NoDup_run, NoDup_nil_2.
    + by apply (snapshot_current_run t init).
  - apply count_frame_written.
Qed.

(** Where both roles come from.  A socket is at once the registered
    transmitter and a member of the listener set only if it has itself
    sent both a register-as-transmitter frame whose token verified and a
    register-as-listener frame; a socket that sends at most one of the
    two is in at most one role. *)
Theorem both_roles_need_both_registrations t ws :
  transmitterSocket (run t init) = Some ws →
  ws ∈ listeners (run t init) →
  existsb (wins_transmitter ws) t = true ∧
  existsb (joins_as_listener ws) t = true.
Proof.
  intros Ht Hl. split.
  - by destruct (transmitter_slot_run _ _ _ Ht).
  - destruct (listener_member_run _ _ _ Hl) as [Hin|]; [|done].
    by apply elem_of_nil in Hin.
Qed.

(** C10. When a socket whose role is transmitter sends [stop], the
    handler announces broadcast-end to every open listener, publishes
    the snapshot and closes the socket, but leaves its role at
    transmitter; the close event that follows therefore runs the
    transmitter branch again, so every open listener other than the
    closing socket is sent broadcast-end a second time and the snapshot
    is published once more. *)
Theorem stop_then_close_announces_end_twice ws data s :
  request_of data = Stop →
  role_of s ws = RoleTransmitter →
  let s1 := step s (Message ws data false) in
  let s2 := step s1 (Close ws) in
  let ended l := (l, TextFrame msg_broadcast_end) in
  s1 = ws_close ws (end_broadcast s) ∧
  role_of s1 ws = RoleTransmitter ∧
  is_open s1 ws = false ∧
  s2 = end_broadcast (set_readyState ws CLOSED s1) ∧
  wire s1 = wire s ++ (ended <$> open_listeners s) ∧
  wire s2 = wire s1 ++ (ended <$> filter (λ l, l ≠ ws) (open_listeners s)) ∧
  maktabBroadcast s1 =
    {| isLive := false; listenerCount := length (listeners s) |} ∧
  maktabBroadcast s2 =
    {| isLive := false; listenerCount := length (listeners s) |}.
Proof.
  intros Hreq Hrole. cbv zeta. unfold step.
  rewrite on_message_text, Hreq. unfold is_transmitter. rewrite Hrole.
  cbn [snd]. fold (stop_broadcast ws s).
  assert (role_of (stop_broadcast ws s) ws = RoleTransmitter) as Hrole1.
  { by rewrite stop_broadcast_eq. }
  unfold on_close.
  change (role_of (set_readyState ws CLOSED (stop_broadcast ws s)) ws)
    with (role_of (stop_broadcast ws s) ws).
  rewrite Hrole1, end_broadcast_eq.
  split; [done|]. split; [done|].
  rewrite stop_broadcast_eq; simpl.
  split.
  { unfold is_open, readyState_of; simpl.
    destruct (default CLOSED (readyState s !! ws)) eqn:Hrs; simpl;
      by rewrite ?Hrs, ?lookup_insert_eq. }
  split; [done|]. split; [done|]. split; [|done].
  f_equal. unfold fanout, open_listeners; simpl. f_equal.
  rewrite list_filter_filter. apply list_filter_iff. intros l.
  unfold is_open, readyState_of; simpl.
  destruct (decide (l = ws)) as [->|Hne].
  - rewrite lookup_insert_eq; simpl. naive_solver.
  - rewrite lookup_insert_ne by done.
    destruct (default CLOSED (readyState s !! ws)); simpl;
      rewrite ?lookup_insert_ne by done; naive_solver.
Qed.

(** The role guard at work: a binary frame, or a [stop], from a socket
    whose role is not transmitter changes nothing and writes nothing,
    and so does a frame of an unrecognised type. *)
Lemma role_guard_ignores ws data isBinary s :
  (isBinary = true ∨ request_of data = Stop) →
  role_of s ws ≠ RoleTransmitter →
  on_message ws data isBinary s = (Returned, s).
Proof.
  intros Hkind Hrole.
  assert (is_transmitter s ws = false) as Hnt.
  { unfold is_transmitter. by destruct (role_of s ws). }
  destruct isBinary.
  - by rewrite on_message_binary, Hnt.
  - destruct Hkind as [|Hstop]; [done|].
    by rewrite on_message_text, Hstop, Hnt.
Qed.

Lemma unrecognised_type_ignored ws data s :
  request_of data = Unrecognized →
  on_message ws data false s = (Returned, s).
Proof. intros Hreq. by rewrite on_message_text, Hreq. Qed.

(** A text frame holding JSON [null] parses, but reading its [type]
    throws: the handler's promise rejects before any reply or state
    change. *)
Lemma null_frame_rejects ws data s :
  JSON_parse data = Some VNull →
  on_message ws data false s = (Rejected, s).
Proof. intros Hp. unfold on_message. by rewrite Hp. Qed.

Lemma close_without_role_ignored ws s :
  role_of s ws = RoleNull →
  broadcast_state (step s (Close ws)) = broadcast_state s ∧
  wire (step s (Close ws)) = wire s.
Proof.
  intros Hr. unfold step, on_close.
  change (role_of (set_readyState ws CLOSED s) ws) with (role_of s ws).
  by rewrite Hr.
Qed.

(** *** What a successful registration and the frames after it do *)

(** X11. Registration with a verified token: the previous holder of
    the slot is no longer open, the new socket holds the slot, the relay is live
    with no init segment, and open listeners are told broadcast-start. *)
Lemma registration_evicts_previous ws data payload s :
  request_of data = RegisterTransmitter payload →
  truthy payload = true →
  let s' := step s (Message ws data false) in
  transmitterSocket s' = Some ws ∧
  role_of s' ws = RoleTransmitter ∧
  isBroadcasting s' = true ∧
  initSegment s' = None ∧
  listeners s' = listeners s ∧
  (∀ old, transmitterSocket s = Some old → is_open s' old = false) ∧
  written s (Message ws data false) =
    (if is_open (evicted s) ws then [(ws, TextFrame msg_ready)] else [])
    ++ fanout (TextFrame msg_broadcast_start) (evicted s).
Proof.
  intros Hreq Hp. cbv zeta. unfold written, step.
  rewrite on_message_text, Hreq; cbn [snd].
  rewrite register_transmitter_accept by done. cbv zeta; simpl.
  rewrite drop_app_length.
  repeat split; try done.
  - unfold role_of; simpl. by rewrite lookup_insert_eq.
  - intros old Hold. unfold evicted, ws_close. rewrite Hold.
    unfold is_open, readyState_of; simpl.
    destruct (default CLOSED (readyState s !! old)) eqn:Hrs; simpl;
      by rewrite ?Hrs, ?lookup_insert_eq.
Qed.

(** X12. Frames sent one after the other by a socket whose role is
    transmitter: each is written unmodified to every open listener, in
    arrival order, and the first is kept as init segment unless one is
    already held. *)
Lemma binary_frames_forwarded_in_order tx ds s :
  is_transmitter s tx = true →
  let s' := run ((λ d, Message tx d true) <$> ds) s in
  wire s' = wire s ++ (ds ≫= λ d, fanout (BinaryFrame d) s) ∧
  initSegment s' = match initSegment s with
                   | Some seg => Some seg
                   | None => head ds
                   end.
Proof.
  intros Htx. cbv zeta. revert s Htx.
  induction ds as [|d ds IH]; intros s Htx.
  - simpl. rewrite app_nil_r. by destruct (initSegment s).
  - rewrite fmap_cons. change (run (?e :: ?t) s) with (run t (step s e)).
    unfold step at 1 2. rewrite on_message_binary, Htx; cbn [snd].
    set (s1 := mkState _ _ _ _ _ _ _ _).
    destruct (IH s1) as [Hw Hi]; [done|].
    rewrite Hw, Hi, bind_cons. subst s1; simpl. split.
    + by rewrite <- app_assoc.
    + by destruct (initSegment s).
Qed.

End Registry.

Lemma listener_count_matches_listener_set_witness :
  let s := run (takeover ++ [Connection 4]) init in
  let e := Message 4 txt_listener false in
  2 = length (listeners (step s e)) ∧ transmitterSocket (step s e) = Some 3.
Proof.
  apply (proj2 listener_count_matches_listener_set
           (run (takeover ++ [Connection 4]) init)
           (Message 4 txt_listener false) 3 2).
  vm_compute. constructor.
Defined.

Lemma both_roles_need_both_registrations_witness :
  existsb (wins_transmitter 1) both_roles = true ∧
  existsb (joins_as_listener 1) both_roles = true.
Proof.
  apply (both_roles_need_both_registrations both_roles 1).
  - reflexivity.
  - vm_compute. constructor.
Defined.

Lemma stop_then_close_announces_end_twice_witness :
  let s := run takeover init in
  let s1 := step s (Message 3 txt_stop false) in
  let s2 := step s1 (Close 3) in
  wire s1 = wire s ++ [(1, TextFrame msg_broadcast_end)] ∧
  wire s2 = wire s1 ++ [(1, TextFrame msg_broadcast_end)].
Proof.
  pose proof (stop_then_close_announces_end_twice
                3 txt_stop (run takeover init) eq_refl eq_refl) as Hall.
  cbv zeta in Hall. destruct Hall as (_ & _ & _ & _ & Hw1 & Hw2 & _).
  split.
  - vm_compute in Hw1 |- *. exact Hw1.
  - vm_compute in Hw2 |- *. exact Hw2.
Defined.

(** ** The role variable outlives the transmitter slot

    Eviction closes the old socket but cannot reach its [role]
    variable, and neither [stop] nor the guards of the binary, [stop]
    and ['close'] paths compare the socket with [transmitterSocket].
    The runs below evaluate the handlers on the sample runtime. *)

(** One role per connection fails: a socket that registers as
    transmitter and then as listener holds the transmitter slot and sits
    in the listener set at once. *)
Lemma one_role_per_connection_fails : ¬ one_role_per_connection.
Proof.
  intros Hclaim. apply (Hclaim both_roles 1). split.
  - reflexivity.
  - vm_compute. constructor.
Qed.

(** C1, on the code.  When socket 3 registers while socket 2 is on air,
    the same step closes socket 2, puts socket 3 in the slot, discards
    the init segment and announces broadcast-start; but the close event
    of socket 2 that follows announces broadcast-end and clears the slot
    and the live flag, so the listener sees the broadcast of socket 3
    interrupted: start, X, start, end, Y. *)
Theorem takeover_is_interrupted_by_first_close :
  let s := run takeover init in
  let s' := run [Close 2; Message 3 "Y" true] s in
  transmitterSocket s = Some 3 ∧
  is_open s 2 = false ∧
  initSegment s = None ∧
  is_open s' 3 = true ∧
  transmitterSocket s' = None ∧
  isBroadcasting s' = false ∧
  received 1 s' =
    [ TextFrame msg_broadcast_end;
      TextFrame msg_broadcast_start; BinaryFrame "X";
      TextFrame msg_broadcast_start;
      TextFrame msg_broadcast_end; BinaryFrame "Y" ].
Proof. vm_compute. repeat split. Qed.

(** C2, on the code.  The close handler looks at the role variable of
    the closing socket only: whenever that role is transmitter, also
    when the slot holds another socket that registered since, the slot,
    the live flag and the init segment are cleared, broadcast-end is
    fanned out and the snapshot is published as not live. *)
Theorem close_of_stale_transmitter_ends_broadcast ws s :
  role_of s ws = RoleTransmitter →
  let s' := step s (Close ws) in
  transmitterSocket s' = None ∧
  isBroadcasting s' = false ∧
  initSegment s' = None ∧
  maktabBroadcast s' =
    {| isLive := false; listenerCount := length (listeners s) |} ∧
  wire s' = wire s ++
    fanout (TextFrame msg_broadcast_end) (set_readyState ws CLOSED s).
Proof.
  intros Hr. cbv zeta. unfold step, on_close.
  change (role_of (set_readyState ws CLOSED s) ws) with (role_of s ws).
  by rewrite Hr, end_broadcast_eq.
Qed.

Lemma close_of_stale_transmitter_ends_broadcast_witness :
  let s := run takeover init in
  let s' := step s (Close 2) in
  (transmitterSocket s = Some 3 ∧ isBroadcasting s = true ∧
   is_open s 3 = true) ∧
  (transmitterSocket s' = None ∧ isBroadcasting s' = false ∧
   maktabBroadcast s' = {| isLive := false; listenerCount := 1 |}).
Proof.
  pose proof (close_of_stale_transmitter_ends_broadcast
                2 (run takeover init) eq_refl) as Hall.
  cbv zeta in Hall. destruct Hall as (Ht & Hb & _ & Hs & _).
  split.
  - repeat split.
  - exact (conj Ht (conj Hb Hs)).
Defined.

(** C5, on the code.  A listener that joins after the close of an
    evicted transmitter has switched the relay to idle is greeted with
    broadcast-end, and is then sent the frames of the transmitter that
    is still streaming, with no broadcast-start in between. *)
Theorem idle_joiner_receives_binary_without_start :
  let s := run (takeover ++ [Close 2; Connection 4]) init in
  let s' := run [Message 4 txt_listener false; Message 3 "Y" true] s in
  isBroadcasting s = false ∧
  received 4 s' = [TextFrame msg_broadcast_end; BinaryFrame "Y"].
Proof. vm_compute. repeat split. Qed.

(** C7, on the code.  The guards of the binary path and of [stop] read
    the role variable only.  A socket whose role is still transmitter
    while the slot holds another socket (an evicted transmitter whose
    late messages arrive before its close) is obeyed: its binary frame
    is forwarded to every open listener and kept as init segment if
    none is held, and its [stop] clears the slot and the live flag and
    announces broadcast-end. *)
Theorem evicted_transmitter_is_still_obeyed `{Runtime} ws current frame stop s :
  role_of s ws = RoleTransmitter →
  transmitterSocket s = Some current →
  current ≠ ws →
  request_of stop = Stop →
  let late_frame := Message ws frame true in
  let late_stop := Message ws stop false in
  written s late_frame = fanout (BinaryFrame frame) s ∧
  initSegment (step s late_frame) = Some (default frame (initSegment s)) ∧
  written s late_stop = fanout (TextFrame msg_broadcast_end) s ∧
  transmitterSocket (step s late_stop) = None ∧
  isBroadcasting (step s late_stop) = false.
Proof.
  intros Hrole _ _ Hstop. cbv zeta. unfold written, step.
  assert (is_transmitter s ws = true) as Htx.
  { unfold is_transmitter. by rewrite Hrole. }
  rewrite on_message_binary, on_message_text, Hstop, Htx; cbn [snd].
  rewrite stop_broadcast_eq; simpl. rewrite !drop_app_length.
  repeat split. by destruct (initSegment s).
Qed.

Lemma evicted_transmitter_is_still_obeyed_witness :
  let s := run takeover init in
  readyState_of s 2 = CLOSING ∧
  written s (Message 2 "Z" true) = [(1, BinaryFrame "Z")] ∧
  initSegment (step s (Message 2 "Z" true)) = Some "Z" ∧
  written s (Message 2 txt_stop false) = [(1, TextFrame msg_broadcast_end)] ∧
  transmitterSocket (step s (Message 2 txt_stop false)) = None ∧
  isBroadcasting (step s (Message 2 txt_stop false)) = false.
Proof.
  assert (3 ≠ 2) as Hne by discriminate.
  pose proof (evicted_transmitter_is_still_obeyed
                2 3 "Z" txt_stop (run takeover init)
                eq_refl eq_refl Hne eq_refl) as Hall.
  split; [reflexivity|].
  vm_compute in Hall |- *. exact Hall.
Defined.

(** C8, on the code.  A socket whose role is transmitter can send a
    frame while the relay is not live (after the close of an evicted
    predecessor, or after its own [stop]); the frame is stored as init
    segment although the live flag stays off. *)
Theorem init_segment_set_while_idle `{Runtime} ws data s :
  role_of s ws = RoleTransmitter →
  isBroadcasting s = false →
  initSegment s = None →
  let s' := step s (Message ws data true) in
  isBroadcasting s' = false ∧ initSegment s' = Some data.
Proof.
  intros Hrole Hidle Hseg. cbv zeta. unfold step.
  assert (is_transmitter s ws = true) as Htx.
  { unfold is_transmitter. by rewrite Hrole. }
  rewrite on_message_binary, Htx; simpl. by rewrite Hidle, Hseg.
Qed.

Lemma init_segment_set_while_idle_witness :
  let s := run (takeover ++ [Close 2]) init in
  let s' := step s (Message 3 "Y" true) in
  is_open s 3 = true ∧ isBroadcasting s' = false ∧ initSegment s' = Some "Y".
Proof.
  pose proof (init_segment_set_while_idle
                3 "Y" (run (takeover ++ [Close 2]) init)
                eq_refl eq_refl eq_refl) as Hall.
  split; [reflexivity|].
  vm_compute in Hall |- *. exact Hall.
Defined.

(** ** Further properties of the relay *)

Section Relay.
Context `{Runtime}.

Lemma run_snoc t e s : run (t ++ [e]) s = step (run t s) e.
Proof. unfold run. apply foldl_snoc. Qed.

Lemma is_transmitter_role s ws :
  is_transmitter s ws = true ↔ role_of s ws = RoleTransmitter.
Proof. unfold is_transmitter. destruct (role_of s ws); naive_solver. Qed.

Lemma wire_step s e : wire (step s e) = wire s ++ written s e.
Proof.
  unfold written. step_cases s e; simpl;
    by rewrite ?drop_all, ?drop_app_length, ?app_nil_r.
Qed.

Lemma role_step s e ws :
  role_of (step s e) ws = RoleTransmitter →
  role_of s ws = RoleTransmitter ∨ wins_transmitter ws e = true.
Proof.
  unfold wins_transmitter, role_of.
  step_cases s e; simpl; try (by left);
    rewrite lookup_insert; case_decide; simplify_eq/=; try (by left);
    try discriminate.
  intros _. right. by rewrite bool_decide_true.
Qed.

Lemma role_run t ws :
  role_of (run t init) ws = RoleTransmitter →
  existsb (wins_transmitter ws) t = true.
Proof.
  induction t as [|e t IH] using rev_ind; [done|].
  rewrite run_snoc, existsb_app. intros Hr.
  destruct (role_step _ _ _ Hr) as [Hs|He].
  - by rewrite IH.
  - cbn [existsb]. rewrite He. by rewrite !orb_true_r.
Qed.

Lemma is_str_eq v lit : is_str v lit = true ↔ v = VStr lit.
Proof.
  destruct v; simpl; try (split; intros; discriminate).
  rewrite String.eqb_eq. split; [by intros ->|by intros [= ->]].
Qed.

Lemma wins_transmitter_inv ws e :
  wins_transmitter ws e = true →
  ∃ data msg payload,
    e = Message ws data false ∧
    JSON_parse data = Some msg ∧
    getProp msg "type" = Some (VStr "transmitter") ∧
    jwtVerify (js_or (optProp msg "token") (VStr "")) = Some payload ∧
    optProp payload "role" = VStr "admin".
Proof.
  unfold wins_transmitter, request_of, verifyAdminToken.
  destruct e as [|ws' data [|]|]; try done.
  case_bool_decide; [subst ws'|done]. simpl.
  destruct (JSON_parse data) as [msg|] eqn:Hparse; [|done].
  destruct (getProp msg "type") as [ty|] eqn:Htype; [|done].
  destruct (is_str ty "transmitter") eqn:Hty.
  - apply is_str_eq in Hty as ->.
    destruct (jwtVerify _) as [payload|] eqn:Hv; [|done].
    destruct (is_str (optProp payload "role") "admin") eqn:Hrole; [|done].
    apply is_str_eq in Hrole. intros _. by exists data, msg, payload.
  - by destruct (is_str ty "listener"), (is_str ty "stop").
Qed.

(** X1. A socket holds the transmitter role only after it has itself
    sent a text frame of type [transmitter] whose token [jwtVerify]
    resolved with a payload of role [admin]. *)
Theorem transmitter_role_requires_admin_token t ws :
  role_of (run t init) ws = RoleTransmitter →
  ∃ data msg payload,
    Message ws data false ∈ t ∧
    JSON_parse data = Some msg ∧
    getProp msg "type" = Some (VStr "transmitter") ∧
    jwtVerify (js_or (optProp msg "token") (VStr "")) = Some payload ∧
    optProp payload "role" = VStr "admin".
Proof.
  intros Hr. apply role_run, existsb_exists in Hr as (e & Hin & He).
  apply wins_transmitter_inv in He as (data & msg & payload & -> & ?).
  exists data, msg, payload. split; [|done]. by apply list_elem_of_In.
Qed.

Lemma sent_by_transmitter_snoc t e d :
  sent_by_transmitter t d → sent_by_transmitter (t ++ [e]) d.
Proof.
  intros (t1 & tx & t2 & -> & Hr).
  exists t1, tx, (t2 ++ [e]). split; [|done]. by rewrite <- app_assoc.
Qed.

Lemma binary_written s e ws d :
  (ws, BinaryFrame d) ∈ written s e →
  (∃ tx, e = Message tx d true ∧ role_of s tx = RoleTransmitter)
  ∨ initSegment s = Some d.
Proof.
  unfold written. step_cases s e; simpl;
    rewrite ?drop_all, ?drop_app_length;
    unfold fanout, count_frames, greeting; simpl;
    try (match goal with
         | Htx : is_transmitter _ _ = true |- _ =>
             apply is_transmitter_role in Htx
         end);
    repeat case_match; set_unfold; naive_solver.
Qed.

Lemma initSegment_step s e d :
  initSegment (step s e) = Some d →
  initSegment s = Some d
  ∨ ∃ tx, e = Message tx d true ∧ role_of s tx = RoleTransmitter.
Proof.
  step_cases s e; simpl; try (by left); try done.
  match goal with
  | Htx : is_transmitter _ _ = true |- _ => apply is_transmitter_role in Htx
  end.
  destruct (initSegment s); naive_solver.
Qed.

Lemma audio_provenance t :
  (∀ ws d, (ws, BinaryFrame d) ∈ wire (run t init) → sent_by_transmitter t d)
  ∧ (∀ d, initSegment (run t init) = Some d → sent_by_transmitter t d).
Proof.
  induction t as [|e t [IHw IHs]] using rev_ind.
  - split; [|done]. intros ws d Hin. by apply elem_of_nil in Hin.
  - rewrite run_snoc.
    assert (∀ d, (∃ tx, e = Message tx d true ∧
                        role_of (run t init) tx = RoleTransmitter) →
                 sent_by_transmitter (t ++ [e]) d) as Hnew.
    { intros d (tx & -> & Hr). by exists t, tx, []. }
    split.
    + intros ws d. rewrite wire_step, elem_of_app.
      intros [Hold|Hw]; [by eapply sent_by_transmitter_snoc, IHw|].
      destruct (binary_written _ _ _ _ Hw) as [?|Hseg]; [by apply Hnew|].
      by apply sent_by_transmitter_snoc, IHs.
    + intros d Hseg.
      destruct (initSegment_step _ _ _ Hseg) as [?|?]; [|by apply Hnew].
      by apply sent_by_transmitter_snoc, IHs.
Qed.

(** X2. Every binary frame the relay has written, to whatever socket,
    carries data that some socket sent as a binary frame while it held
    the transmitter role: nothing else is ever relayed or replayed as
    init segment. *)
Theorem relayed_audio_comes_from_transmitters t ws d :
  (ws, BinaryFrame d) ∈ wire (run t init) →
  sent_by_transmitter t d.
Proof. apply audio_provenance. Qed.

Lemma in_fanout ws f f' s :
  (ws, f) ∈ fanout f' s ↔ f = f' ∧ is_open s ws = true ∧ ws ∈ listeners s.
Proof.
  unfold fanout. rewrite list_elem_of_fmap. setoid_rewrite list_elem_of_filter.
  split.
  - intros (x & [= -> ->] & Hop & Hin). by apply Is_true_true in Hop.
  - intros (-> & Hop & Hin). exists ws. by rewrite Hop.
Qed.

Lemma in_count_frames ws f s :
  (ws, f) ∈ count_frames s →
  transmitterSocket s = Some ws ∧ is_open s ws = true ∧
  f = TextFrame (msg_listener_count (length (listeners s))).
Proof.
  unfold count_frames. destruct (transmitterSocket s) as [t|]; [|by intros ?%elem_of_nil].
  destruct (is_open s t) eqn:Hop; [|by intros ?%elem_of_nil].
  by intros [= -> ->]%list_elem_of_singleton.
Qed.

Lemma in_greeting ws' f ws s :
  (ws', f) ∈ greeting ws s →
  ws' = ws ∧ is_open s ws = true ∧
  (f = TextFrame msg_broadcast_start ∨ f = TextFrame msg_broadcast_end
   ∨ ∃ d, f = BinaryFrame d ∧ initSegment s = Some d).
Proof.
  unfold greeting. destruct (is_open s ws); [|by intros ?%elem_of_nil].
  destruct (isBroadcasting s), (initSegment s); set_unfold; naive_solver.
Qed.

Lemma is_open_evicted s ws : is_open (evicted s) ws = true → is_open s ws = true.
Proof.
  unfold evicted, ws_close. destruct (transmitterSocket s) as [old|]; [|done].
  destruct (is_open s old) eqn:Hop; [|done].
  unfold is_open, readyState_of; simpl. rewrite lookup_insert.
  case_decide; [by subst|done].
Qed.

Lemma listeners_evicted s : listeners (evicted s) = listeners s.
Proof.
  unfold evicted, ws_close. destruct (transmitterSocket s) as [old|]; [|done].
  by destruct (is_open s old).
Qed.

Lemma is_open_after_close s ws0 ws :
  is_open (set_readyState ws0 CLOSED s) ws = true → is_open s ws = true.
Proof.
  unfold is_open, readyState_of; simpl. rewrite lookup_insert.
  case_decide; [by subst|done].
Qed.

Lemma elem_of_Set_add ws ws0 l : ws ∈ Set_add ws0 l ↔ ws = ws0 ∨ ws ∈ l.
Proof.
  unfold Set_add. case_bool_decide.
  - naive_solver.
  - rewrite elem_of_app, list_elem_of_singleton. naive_solver.
Qed.

Ltac written_cases s e :=
  unfold written; step_cases s e;
  cbn -[fanout count_frames greeting evicted is_open Set_add Set_delete];
  rewrite ?drop_all, ?drop_app_length.

Ltac split_written :=
  repeat match goal with
  | H : _ ∈ _ ++ _ |- _ => apply elem_of_app in H as [H|H]
  | H : _ ∈ fanout _ _ |- _ => apply in_fanout in H as (-> & ? & ?)
  | H : _ ∈ count_frames _ |- _ => apply in_count_frames in H as (? & ? & ->)
  | H : _ ∈ greeting _ _ |- _ => apply in_greeting in H as (-> & ? & ?)
  | H : _ ∈ (if ?b then _ else _) |- _ => destruct b eqn:?
  | H : _ ∈ [] |- _ => by apply elem_of_nil in H
  | H : _ ∈ [_] |- _ => apply list_elem_of_singleton in H; simplify_eq
  end.

(** X3. Whatever the state and the event, the frames one step writes
    go to sockets that were open before the step, and each kind has its
    audience: binary frames and the broadcast-start and broadcast-end
    announcements go to members of the listener set only, while [ready]
    and [error] go only to the socket whose text frame is being
    handled. *)
Theorem frames_go_to_their_audience s e ws f :
  (ws, f) ∈ written s e →
  is_open s ws = true ∧
  ((∃ d, f = BinaryFrame d) ∨ f = TextFrame msg_broadcast_start
   ∨ f = TextFrame msg_broadcast_end → ws ∈ listeners (step s e)) ∧
  (f = TextFrame msg_ready ∨ (∃ m, f = TextFrame (msg_error m)) →
   ∃ data, e = Message ws data false).
Proof.
  written_cases s e; intros Hin; split_written.
  all: repeat match goal with
       | H : is_open (evicted _) _ = true |- _ => apply is_open_evicted in H
       | H : is_open (set_readyState _ CLOSED _) _ = true |- _ =>
           apply is_open_after_close in H
       | H : is_open (updateGlobalState
                        (set_listeners _ (set_readyState ?w CLOSED ?s0))) ?x
             = true |- _ =>
           apply (is_open_after_close s0 w x) in H
       | H : _ ∈ listeners (evicted _) |- _ => rewrite listeners_evicted in H
       end.
  all: try (split; [done|]).
  all: try (split; [|naive_solver]).
  all: try (intros _; cbn [listeners]; rewrite ?elem_of_Set_add; naive_solver).
  all: try by (unfold msg_ready, msg_error, msg_listener_count,
               msg_broadcast_start, msg_broadcast_end;
               intros [[d ?]|[?|?]]; simplify_eq).
Qed.
Lemma slot_tracks_live_step s e :
  slot_tracks_live s → slot_tracks_live (step s e).
Proof. unfold slot_tracks_live. step_cases s e; simpl; done. Qed.

Lemma slot_tracks_live_run t s :
  slot_tracks_live s → slot_tracks_live (run t s).
Proof.
  revert s. induction t as [|e t IH]; intros s Hs; simpl; [done|].
  apply IH, slot_tracks_live_step, Hs.
Qed.

(** X4. In every state reached from the initial one the live flag is on
    exactly when the transmitter slot is occupied, and the published
    snapshot says live exactly then. *)
Theorem live_exactly_when_slot_occupied t :
  let s := run t init in
  (isBroadcasting s = true ↔ is_Some (transmitterSocket s)) ∧
  (isLive (maktabBroadcast s) = true ↔ is_Some (transmitterSocket s)).
Proof.
  cbv zeta.
  pose proof (slot_tracks_live_run t init eq_refl) as Hs.
  pose proof (snapshot_current_run t init eq_refl) as Hc.
  unfold slot_tracks_live in Hs. rewrite Hc; simpl.
  destruct (transmitterSocket (run t init)); rewrite Hs;
    split; split; try done; try (by intros [? ?]); by eexists.
Qed.

Lemma listener_stays s e ws :
  ws ∈ listeners s →
  ws ∉ listeners (step s e) →
  e = Close ws ∧ role_of s ws = RoleListener.
Proof.
  intros Hin. step_cases s e;
    cbn -[Set_add Set_delete]; try done.
  - rewrite elem_of_Set_add. naive_solver.
  - unfold Set_delete. rewrite list_elem_of_filter.
    intros Hout. destruct (decide (ws = ws0)) as [->|Hne]; [done|].
    destruct Hout. done.
Qed.

(** X5. A member of the listener set leaves it in one way only: by the
    close event of that very socket while its role is listener.  No
    stop, eviction, refusal, or close of another socket removes a
    listener. *)
Theorem listener_leaves_only_on_its_own_close s e ws :
  ws ∈ listeners s →
  ws ∉ listeners (step s e) →
  e = Close ws ∧ role_of s ws = RoleListener.
Proof. apply listener_stays. Qed.

Lemma is_open_step s e ws :
  is_open (step s e) ws = true →
  is_open s ws = true ∨ e = Connection ws.
Proof.
  unfold is_open, readyState_of.
  step_cases s e; unfold evicted, ws_close; simpl; try (by left).
  - rewrite lookup_insert. case_decide; [by right; subst|by left].
  - destruct (transmitterSocket s) as [old|]; [|by left].
    destruct (is_open s old); [|by left]. simpl.
    rewrite lookup_insert. case_decide; [done|by left].
  - rewrite lookup_insert. case_decide; [done|by left].
  - destruct (is_open s ws0); [|by left]. simpl.
    rewrite lookup_insert. case_decide; [done|by left].
  - rewrite lookup_insert. case_decide; [done|by left].
  - rewrite lookup_insert. case_decide; [done|by left].
  - rewrite lookup_insert. case_decide; [done|by left].
Qed.

(** X6. A socket that joined as listener and later won the transmitter
    role is not removed when it closes: the close handler takes the
    transmitter branch.  As long as no further event of that socket
    occurs it stays in the listener set, closed, and the published
    listener count keeps counting it. *)
Theorem closed_transmitter_stays_counted ws s t :
  ws ∈ listeners s →
  role_of s ws = RoleTransmitter →
  Forall (λ e, ¬ event_of ws e) t →
  let s' := run (Close ws :: t) s in
  ws ∈ listeners s' ∧
  is_open s' ws = false ∧
  listenerCount (maktabBroadcast s') = length (listeners s') ∧
  (1 ≤ listenerCount (maktabBroadcast s'))%nat.
Proof.
  intros Hin Hrole Ht. cbv zeta.
  change (run (Close ws :: t) s) with (run t (step s (Close ws))).
  set (s1 := step s (Close ws)).
  assert (ws ∈ listeners s1 ∧ is_open s1 ws = false ∧ snapshot_current s1)
    as (Hin1 & Hop1 & Hsn1).
  { subst s1. unfold step, on_close.
    change (role_of (set_readyState ws CLOSED s) ws) with (role_of s ws).
    rewrite Hrole, end_broadcast_eq. repeat split; [done|].
    unfold is_open, readyState_of; simpl. by rewrite lookup_insert_eq. }
  clearbody s1. clear Hin Hrole.
  assert (ws ∈ listeners (run t s1) ∧ is_open (run t s1) ws = false
          ∧ snapshot_current (run t s1)) as (Hin' & Hop' & Hsn').
  { revert s1 Hin1 Hop1 Hsn1.
    induction Ht as [|e t He Ht IH]; intros s1 Hin1 Hop1 Hsn1; [done|].
    simpl. apply IH.
    - destruct (decide (ws ∈ listeners (step s1 e))) as [|Hout]; [done|].
      destruct (listener_stays _ _ _ Hin1 Hout) as [-> _]. by destruct He.
    - destruct (is_open (step s1 e) ws) eqn:Hop; [|done].
      destruct (is_open_step _ _ _ Hop) as [?| ->]; [congruence|].
      by destruct He.
    - by apply snapshot_current_step. }
  repeat split; try done.
  - unfold snapshot_current in Hsn'. by rewrite Hsn'.
  - unfold snapshot_current in Hsn'. rewrite Hsn'; simpl.
    destruct (listeners (run t s1)); [by apply elem_of_nil in Hin'|simpl; lia].
Qed.

Lemma Set_delete_add ws l : ws ∉ l → Set_delete ws (Set_add ws l) = l.
Proof.
  intros Hout. unfold Set_delete, Set_add.
  rewrite bool_decide_false by done.
  rewrite filter_app, filter_cons_False, filter_nil, app_nil_r by naive_solver.
  induction l as [|x l IH]; [done|].
  apply not_elem_of_cons in Hout as [Hne Hout].
  rewrite filter_cons_True by done. by rewrite IH.
Qed.

(** X7. Joining and leaving is a round trip on the registry: when a
    socket that is not in the listener set registers as listener and
    then closes, the listener set is what it was before and the
    snapshot publishes the old count again. *)
Theorem listener_join_then_close_restores_registry ws data s :
  request_of data = RegisterListener →
  ws ∉ listeners s →
  let s' := run [Message ws data false; Close ws] s in
  listeners s' = listeners s ∧
  maktabBroadcast s' =
    {| isLive := isBroadcasting s; listenerCount := length (listeners s) |}.
Proof.
  intros Hreq Hout. cbv zeta.
  change (run [Message ws data false; Close ws] s)
    with (step (step s (Message ws data false)) (Close ws)).
  assert (step s (Message ws data false) = register_listener ws s) as ->.
  { unfold step. by rewrite on_message_text, Hreq. }
  rewrite register_listener_eq. cbv zeta.
  unfold step. rewrite on_close_listener_eq.
  - cbn -[Set_add Set_delete]. by rewrite Set_delete_add.
  - unfold role_of; simpl. by rewrite lookup_insert_eq.
Qed.

(** X8. Registering as listener again on a socket that is already in
    the listener set neither adds a second entry nor changes the
    published count; the socket is only greeted once more. *)
Theorem repeated_join_counts_once ws data s :
  request_of data = RegisterListener →
  ws ∈ listeners s →
  let s' := step s (Message ws data false) in
  listeners s' = listeners s ∧
  listenerCount (maktabBroadcast s') = length (listeners s) ∧
  written s (Message ws data false) = count_frames s' ++ greeting ws s'.
Proof.
  intros Hreq Hin. cbv zeta. unfold written, step.
  rewrite on_message_text, Hreq; cbn [snd].
  rewrite register_listener_eq. cbv zeta.
  cbn -[Set_add count_frames greeting]. rewrite drop_app_length.
  unfold Set_add. rewrite bool_decide_true by done. done.
Qed.

(** X9. A socket that already holds the transmitter slot and registers
    again closes itself: the eviction test does not exclude the
    registering socket.  The relay stays live with that socket in the
    slot, the socket is closing, and the [ready] reply is not written. *)
Theorem re_registration_closes_own_socket ws data payload s :
  request_of data = RegisterTransmitter payload →
  truthy payload = true →
  transmitterSocket s = Some ws →
  is_open s ws = true →
  let s' := step s (Message ws data false) in
  readyState_of s' ws = CLOSING ∧
  transmitterSocket s' = Some ws ∧
  isBroadcasting s' = true ∧
  (∀ f, (ws, f) ∉ written s (Message ws data false)).
Proof.
  intros Hreq Hp Hslot Hop. cbv zeta. unfold written, step.
  rewrite on_message_text, Hreq; cbn [snd].
  rewrite register_transmitter_accept by done. cbv zeta.
  cbn -[fanout evicted is_open]. rewrite drop_app_length.
  assert (readyState_of (evicted s) ws = CLOSING) as Hcl.
  { unfold evicted, ws_close. rewrite Hslot, Hop.
    unfold readyState_of; simpl. by rewrite lookup_insert_eq. }
  assert (is_open (evicted s) ws = false) as Hnop.
  { unfold is_open. by rewrite Hcl. }
  repeat split; try done.
  intros f. rewrite Hnop, app_nil_l, in_fanout.
  intros (_ & Ho & _). congruence.
Qed.

(** X10. A text frame that parses but asks for nothing the relay knows
    is never answered: a frame whose [type] is none of the three known
    strings (or that has no [type], like a number, a string or an
    array) is dropped without reply or state change, and the JSON value
    [null] makes the handler throw before it has written or changed
    anything. *)
Theorem typeless_frame_gets_no_reply ws data v s :
  JSON_parse data = Some v →
  (∀ ty, getProp v "type" = Some ty →
         is_str ty "transmitter" = false ∧ is_str ty "listener" = false ∧
         is_str ty "stop" = false) →
  on_message ws data false s =
    (match v with VNull | VUndefined => Rejected | _ => Returned end, s)
  ∧ written s (Message ws data false) = [].
Proof.
  intros Hparse Hty. unfold written, step, on_message. rewrite Hparse.
  destruct (getProp v "type") as [ty|] eqn:Hget.
  - destruct (Hty ty eq_refl) as (-> & -> & ->). simpl.
    rewrite drop_all. by destruct v.
  - simpl. rewrite drop_all. by destruct v.
Qed.

End Relay.

Lemma transmitter_role_requires_admin_token_witness :
  ∃ data msg payload,
    Message 3 data false ∈ takeover ∧
    JSON_parse data = Some msg ∧
    getProp msg "type" = Some (VStr "transmitter") ∧
    jwtVerify (js_or (optProp msg "token") (VStr "")) = Some payload ∧
    optProp payload "role" = VStr "admin".
Proof. exact (transmitter_role_requires_admin_token takeover 3 eq_refl). Defined.

Lemma relayed_audio_comes_from_transmitters_witness :
  sent_by_transmitter takeover "X".
Proof.
  apply (relayed_audio_comes_from_transmitters takeover 1 "X").
  apply list_elem_of_In. vm_compute. auto 10.
Defined.

Lemma frames_go_to_their_audience_witness :
  is_open (run takeover init) 1 = true ∧
  1 ∈ listeners (step (run takeover init) (Message 3 "A" true)).
Proof.
  pose proof (frames_go_to_their_audience
                (run takeover init) (Message 3 "A" true) 1 (BinaryFrame "A"))
    as Hall.
  destruct Hall as (Hop & Hl & _).
  - apply list_elem_of_In. vm_compute. auto.
  - split; [exact Hop|]. apply Hl. left. by exists "A".
Defined.

Lemma listener_leaves_only_on_its_own_close_witness :
  Close 1 = Close 1 ∧ role_of (run takeover init) 1 = RoleListener.
Proof.
  apply (listener_leaves_only_on_its_own_close (run takeover init) (Close 1) 1).
  - apply list_elem_of_In. vm_compute. auto.
  - intros Hin. apply list_elem_of_In in Hin. vm_compute in Hin. exact Hin.
Defined.

Lemma closed_transmitter_stays_counted_witness :
  let s := run [Connection 1; Message 1 txt_listener false;
                Message 1 (txt_transmitter "good") false] init in
  let s' := run [Close 1; Connection 2; Message 2 txt_ping false] s in
  1 ∈ listeners s' ∧ is_open s' 1 = false ∧
  listenerCount (maktabBroadcast s') = length (listeners s') ∧
  (1 ≤ listenerCount (maktabBroadcast s'))%nat.
Proof.
  apply (closed_transmitter_stays_counted 1
           (run [Connection 1; Message 1 txt_listener false;
                 Message 1 (txt_transmitter "good") false] init)
           [Connection 2; Message 2 txt_ping false]).
  - apply list_elem_of_In. vm_compute. auto.
  - reflexivity.
  - repeat constructor; simpl; discriminate.
Defined.

Lemma listener_join_then_close_restores_registry_witness :
  let s := run (takeover ++ [Connection 4]) init in
  let s' := run [Message 4 txt_listener false; Close 4] s in
  listeners s' = listeners s ∧
  maktabBroadcast s' =
    {| isLive := isBroadcasting s; listenerCount := length (listeners s) |}.
Proof.
  apply (listener_join_then_close_restores_registry 4 txt_listener
           (run (takeover ++ [Connection 4]) init)).
  - reflexivity.
  - intros Hin. apply list_elem_of_In in Hin. vm_compute in Hin.
    destruct Hin as [Hin|[]]. discriminate Hin.
Defined.

Lemma repeated_join_counts_once_witness :
  let s := run takeover init in
  listeners (step s (Message 1 txt_listener false)) = listeners s ∧
  listenerCount (maktabBroadcast (step s (Message 1 txt_listener false))) = 1.
Proof.
  pose proof (repeated_join_counts_once 1 txt_listener (run takeover init)
                eq_refl) as Hall.
  destruct Hall as (Hl & Hc & _).
  - apply list_elem_of_In. vm_compute. auto.
  - split; [exact Hl|exact Hc].
Defined.

Lemma re_registration_closes_own_socket_witness :
  let s := run takeover init in
  let s' := step s (Message 3 (txt_transmitter "good") false) in
  readyState_of s' 3 = CLOSING ∧ transmitterSocket s' = Some 3 ∧
  isBroadcasting s' = true.
Proof.
  pose proof (re_registration_closes_own_socket 3 (txt_transmitter "good")
                (VObj [("role", VStr "admin")]) (run takeover init)
                eq_refl eq_refl eq_refl eq_refl) as Hall.
  destruct Hall as (Hr & Ht & Hb & _).
  exact (conj Hr (conj Ht Hb)).
Defined.

Lemma typeless_frame_gets_no_reply_witness :
  on_message 5 txt_null false init = (Rejected, init) ∧
  on_message 5 txt_ping false init = (Returned, init).
Proof.
  split.
  - apply (typeless_frame_gets_no_reply (H := sample_runtime)
             5 txt_null VNull init eq_refl).
    intros ty Hty. discriminate Hty.
  - apply (typeless_frame_gets_no_reply (H := sample_runtime) 5 txt_ping
             (VObj [("type", VStr "ping")]) init eq_refl).
    intros ty [= <-]. by repeat split.
Defined.

Lemma live_exactly_when_slot_occupied_witness :
  is_Some (transmitterSocket (run takeover init)).
Proof.
  apply (proj1 (live_exactly_when_slot_occupied takeover)). reflexivity.
Defined.

Lemma registration_evicts_previous_witness :
  let s := run [Connection 2; Message 2 (txt_transmitter "good") false;
                Connection 3] init in
  let s' := step s (Message 3 (txt_transmitter "good") false) in
  transmitterSocket s' = Some 3 ∧ is_open s' 2 = false ∧
  initSegment s' = None.
Proof.
  pose proof (registration_evicts_previous (H := sample_runtime)
                3 (txt_transmitter "good") (VObj [("role", VStr "admin")])
                (run [Connection 2; Message 2 (txt_transmitter "good") false;
                      Connection 3] init) eq_refl eq_refl) as Hall.
  cbv zeta in Hall. destruct Hall as (Ht & _ & _ & Hi & _ & Hold & _).
  exact (conj Ht (conj (Hold 2 eq_refl) Hi)).
Defined.

Lemma binary_frames_forwarded_in_order_witness :
  let s := run takeover init in
  let s' := run [Message 3 "A" true; Message 3 "B" true] s in
  wire s' = wire s ++ [(1, BinaryFrame "A"); (1, BinaryFrame "B")] ∧
  initSegment s' = Some "A".
Proof.
  pose proof (binary_frames_forwarded_in_order (H := sample_runtime)
                3 ["A"; "B"] (run takeover init) eq_refl) as Hall.
  cbv zeta in Hall. destruct Hall as [Hw Hi].
  split.
  - vm_compute in Hw |- *. exact Hw.
  - vm_compute in Hi |- *. exact Hi.
Defined.

(** ** The HTTP routes *)

Section Http.
Context `{Runtime}.

Lemma prefix_slice p s :
  String.prefix p s = true → s = (p ++ slice (String.length p) s)%string.
Proof.
  revert s. induction p as [|a p IH]; intros s; [done|].
  destruct s as [|b s]; [done|]. simpl.
  destruct (Ascii.ascii_dec a b) as [->|]; [|done].
  intros Hp. rewrite (IH s Hp) at 1. reflexivity.
Qed.

Lemma getToken_bearer m b token :
  getTokenFromRequest (mkReq m (Some ("Bearer " ++ token)%string) b)
  = Some token.
Proof. by destruct token. Qed.

Lemma getToken_inv req token :
  getTokenFromRequest req = Some token →
  authorization req = Some ("Bearer " ++ token)%string.
Proof.
  destruct req as [m auth b]. unfold getTokenFromRequest, startsWith; simpl.
  destruct (String.prefix "Bearer " (default "" auth)) eqn:Hp; [|done].
  intros [= <-]. apply prefix_slice in Hp. simpl in Hp.
  destruct auth as [a|]; simpl in *; [by rewrite Hp at 1|done].
Qed.

(** X13. [getTokenFromRequest] undoes the [Bearer ] prefix and accepts
    nothing else: a header made of [Bearer ] followed by a token yields
    that token, and whenever a token is returned the header is exactly
    [Bearer ] followed by it.  A missing header yields null. *)
Theorem bearer_token_round_trip :
  (∀ m b token,
      getTokenFromRequest (mkReq m (Some ("Bearer " ++ token)%string) b)
      = Some token) ∧
  (∀ req token,
      getTokenFromRequest req = Some token →
      authorization req = Some ("Bearer " ++ token)%string) ∧
  (∀ m b, getTokenFromRequest (mkReq m None b) = None).
Proof.
  split; [apply getToken_bearer|]. split; [apply getToken_inv|done].
Qed.

Lemma admin_check_eq token :
  (let payload := verifyToken token in
   if negb (truthy payload) || negb (is_str (optProp payload "role") "admin")
   then VNull else payload)
  = verifyAdminToken (VStr token).
Proof.
  unfold verifyToken, verifyAdminToken. cbv zeta.
  destruct (jwtVerify (VStr token)) as [payload|]; [|done].
  destruct (is_str (optProp payload "role") "admin") eqn:Hrole.
  - apply is_str_eq in Hrole. destruct payload; try done.
  - by rewrite orb_true_r.
Qed.

Lemma requireAdmin_inv req :
  truthy (requireAdmin req) = true →
  ∃ token payload,
    authorization req = Some ("Bearer " ++ token)%string ∧
    token ≠ "" ∧
    jwtVerify (VStr token) = Some payload ∧
    optProp payload "role" = VStr "admin" ∧
    requireAdmin req = payload.
Proof.
  unfold requireAdmin.
  destruct (getTokenFromRequest req) as [token|] eqn:Htok; [|done].
  apply getToken_inv in Htok.
  destruct (String.eqb token "") eqn:Hempty; [done|].
  apply String.eqb_neq in Hempty.
  rewrite admin_check_eq. unfold verifyAdminToken.
  destruct (jwtVerify (VStr token)) as [payload|] eqn:Hv; [|done].
  destruct (is_str (optProp payload "role") "admin") eqn:Hrole; [|done].
  apply is_str_eq in Hrole. intros _. by exists token, payload.
Qed.

(** X15. [requireAdmin] fails closed: it returns a truthy value only
    for a request whose authorization header is [Bearer ] followed by a
    non-empty token that [jwtVerify] resolves with a payload of role
    admin, and the value returned is that payload. *)
Theorem requireAdmin_fails_closed req :
  truthy (requireAdmin req) = true →
  ∃ token payload,
    authorization req = Some ("Bearer " ++ token)%string ∧
    token ≠ "" ∧
    jwtVerify (VStr token) = Some payload ∧
    optProp payload "role" = VStr "admin" ∧
    requireAdmin req = payload.
Proof. apply requireAdmin_inv. Qed.

(** X16. The status route answers a GET with status 200 and, in every
    state the relay can reach, with the live flag and the size of the
    listener set of that state; any other method gets 405 and no
    body. *)
Theorem broadcast_status_reports_relay_state t req :
  let s := run t init in
  let res := broadcast_status_handler req (Some (maktabBroadcast s)) in
  (method req = "GET" →
   status res = 200 ∧
   json res = Some (VObj [("isLive", VBool (isBroadcasting s));
                          ("listenerCount",
                           VNum (Z.of_nat (length (listeners s))))])) ∧
  (method req ≠ "GET" → status res = 405 ∧ json res = None).
Proof.
  cbv zeta. unfold broadcast_status_handler.
  pose proof (snapshot_current_run t init eq_refl) as Hc.
  unfold snapshot_current in Hc. split.
  - intros ->. simpl. by rewrite Hc.
  - intros Hm. apply String.eqb_neq in Hm. by rewrite Hm.
Qed.

(** X17. The login route issues a token in one case only: a POST whose
    body carries exactly the configured user name and password, where an
    unset or empty environment variable means the built-in default.
    Then the answer is 200 with a token signed for the admin role and
    that user name.  Any other POST gets 401, any other method 405, and
    neither answer carries a token. *)
Theorem login_grants_token_only_for_configured_credentials `{Site} req :
  let res := login_handler req in
  let b := js_or (body req) (VObj []) in
  let user := env_or ADMIN_USERNAME "admin" in
  let pass := env_or ADMIN_PASSWORD "maktab2024" in
  let ok := method req = "POST" ∧ optProp b "username" = VStr user
            ∧ optProp b "password" = VStr pass in
  (ok →
   status res = 200 ∧
   json res =
     Some (VObj [("token",
                  VStr (signToken (VObj [("role", VStr "admin");
                                         ("username", VStr user)])));
                 ("username", VStr user)])) ∧
  (¬ ok →
   (if String.eqb (method req) "POST" then status res = 401
    else status res = 405 ∧ json res = None) ∧
   ∀ v, json res = Some v → optProp v "token" = VUndefined).
Proof.
  cbv zeta. unfold login_handler. split.
  - intros (-> & Hu & Hp). simpl. rewrite Hu, Hp. simpl.
    by rewrite !String.eqb_refl.
  - intros Hnot. destruct (String.eqb (method req) "POST") eqn:Hm; simpl.
    + apply String.eqb_eq in Hm.
      destruct (is_str _ _ && is_str _ _) eqn:Hcred.
      * apply andb_true_iff in Hcred as [Hu%is_str_eq Hp%is_str_eq].
        by destruct Hnot.
      * simpl. split; [done|]. by intros v [= <-].
    + by split.
Qed.

(** X18. End to end, under jose's contract that the payload the login
    route signs verifies with its admin role: the token a successful
    login returns,
    sent in a register-as-transmitter frame, makes the sending socket
    the transmitter and switches the relay to live. *)
Theorem login_token_opens_transmitter `{Site} req v tok ws data s :
  (∀ username, ∃ p',
      jwtVerify (VStr (SignJWT (VObj [("role", VStr "admin");
                                      ("username", username)]))) = Some p'
      ∧ optProp p' "role" = VStr "admin") →
  status (login_handler req) = 200 →
  json (login_handler req) = Some v →
  optProp v "token" = VStr tok →
  JSON_parse data =
    Some (VObj [("type", VStr "transmitter"); ("token", VStr tok)]) →
  let s' := step s (Message ws data false) in
  transmitterSocket s' = Some ws ∧
  role_of s' ws = RoleTransmitter ∧
  isBroadcasting s' = true ∧
  isLive (maktabBroadcast s') = true.
Proof.
  intros Hjose Hst Hjs Htok Hparse. cbv zeta.
  assert (∃ username,
             tok = SignJWT (VObj [("role", VStr "admin");
                                  ("username", username)]))
    as (username & ->).
  { unfold login_handler in Hst, Hjs.
    destruct (negb (String.eqb (method req) "POST")); [done|].
    destruct (is_str _ _ && is_str _ _); [|done].
    simpl in Hjs. injection Hjs as <-. simpl in Htok. injection Htok as <-.
    by eexists. }
  destruct (Hjose username) as (p' & Hv & Hr').
  set (p := VObj [("role", VStr "admin"); ("username", username)]) in *.
  assert (request_of data = RegisterTransmitter p') as Hreq.
  { assert (js_or (VStr (SignJWT p)) (VStr "") = VStr (SignJWT p)) as Hor.
    { unfold js_or; simpl.
      destruct (String.eqb (SignJWT p) "") eqn:Hempty; [|done].
      apply String.eqb_eq in Hempty. by rewrite Hempty. }
    unfold request_of. rewrite Hparse.
    change (getProp (VObj _) "type") with (Some (VStr "transmitter")).
    change (optProp (VObj _) "token") with (VStr (SignJWT p)).
    cbn [is_str]. rewrite String.eqb_refl, Hor.
    unfold verifyAdminToken.
    by rewrite Hv, (proj2 (is_str_eq _ _) Hr'). }
  assert (truthy p' = true) as Hp'.
  { destruct p'; try done. }
  unfold step. rewrite on_message_text, Hreq; cbn [snd].
  rewrite register_transmitter_accept by done. cbv zeta. simpl.
  repeat split. unfold role_of; simpl. by rewrite lookup_insert_eq.
Qed.

(** X19. Only an authorised POST changes the stored timings: whenever a
    call of the timings route leaves the store different, the method
    was POST and the request carried a bearer token that verifies with
    role admin.  A GET, a refused POST and every other method leave the
    store as it is. *)
Theorem timings_change_only_by_admin_post now req g :
  (timings_handler now req g).2 ≠ g →
  method req = "POST" ∧
  status (timings_handler now req g).1 = 200 ∧
  ∃ token payload,
    authorization req = Some ("Bearer " ++ token)%string ∧
    jwtVerify (VStr token) = Some payload ∧
    optProp payload "role" = VStr "admin".
Proof.
  unfold timings_handler.
  destruct (String.eqb (method req) "GET"); [done|].
  destruct (String.eqb (method req) "POST") eqn:Hm; [|done].
  apply String.eqb_eq in Hm.
  destruct (truthy (requireAdmin req)) eqn:Hadm; [|done]. simpl.
  intros _. split; [done|]. split; [done|].
  destruct (requireAdmin_inv req Hadm)
    as (token & payload & ? & _ & ? & ? & _).
  by exists token, payload.
Qed.

Lemma object_spread_lookup props k :
  spread (VObj props) !! k =
  if bool_decide (k ∈ props.*1) then Some (own_prop props k) else None.
Proof.
  simpl. induction props as [|[k' v'] props IH]; [done|].
  rewrite list_to_map_cons, lookup_insert, fmap_cons. simpl.
  destruct (String.eqb k' k) eqn:Hk.
  - apply String.eqb_eq in Hk as ->. rewrite decide_True by done.
    rewrite bool_decide_true; [done|]. apply elem_of_cons. by left.
  - apply String.eqb_neq in Hk. rewrite decide_False by done.
    rewrite IH.
    rewrite (bool_decide_ext (k ∈ k' :: props.*1) (k ∈ props.*1)); [done|].
    rewrite elem_of_cons. naive_solver.
Qed.

(** X20. An authorised POST with an object as body merges the body into
    the stored timings: afterwards [updatedAt] is the server's clock
    reading whatever the body says, every other field the body carries
    has the value of the body's property, every field it does not carry
    keeps its stored value, and no stored field disappears.  The
    response is the new store. *)
Theorem timings_post_merges_fields now req props g :
  method req = "POST" →
  truthy (requireAdmin req) = true →
  body req = VObj props →
  ∃ g',
    timings_handler now req g = (mkRes 200 (Some g'), Some g') ∧
    g' !! "updatedAt" = Some (VStr now) ∧
    (∀ k, k ≠ "updatedAt" →
          g' !! k = if bool_decide (k ∈ props.*1)
                    then Some (own_prop props k)
                    else default ∅ g !! k) ∧
    (∀ k, is_Some (default ∅ g !! k) → is_Some (g' !! k)).
Proof.
  intros Hm Hadm Hbody. unfold timings_handler. rewrite Hm, Hadm, Hbody.
  simpl negb. cbv iota.
  change (String.eqb "POST" "GET") with false.
  change (String.eqb "POST" "POST") with true. cbv iota zeta.
  eexists. split; [done|].
  assert (∀ k, k ≠ "updatedAt" →
               (<["updatedAt":=VStr now]> (spread (VObj props) ∪ default ∅ g))
                 !! k
               = if bool_decide (k ∈ props.*1)
                 then Some (own_prop props k)
                 else default ∅ g !! k) as Hk.
  { intros k Hne. rewrite lookup_insert_ne by done.
    rewrite lookup_union, object_spread_lookup.
    destruct (bool_decide (k ∈ props.*1)), (default ∅ g !! k); done. }
  split; [apply lookup_insert_eq|]. split; [done|].
  intros k Hsome. destruct (decide (k = "updatedAt")) as [->|Hne].
  - rewrite lookup_insert_eq. by eexists.
  - rewrite Hk by done. by destruct (bool_decide (k ∈ props.*1)).
Qed.

End Http.

(** X14. The HTTP admin check and the WebSocket admin check agree when
    they verify under the same key.  [http] is [jwtVerify] under the
    key [lib/auth.js] reads at the call, [relay] under the key
    [server.js] fixed at load; if the two verify alike, [requireAdmin]
    on a request carrying a non-empty token as bearer token returns what
    [verifyAdminToken] returns for that token, the payload when it
    verifies with role admin and null otherwise.  An empty bearer token
    is refused without being verified. *)
Theorem requireAdmin_agrees_with_verifyAdminToken (http relay : Runtime)
        m b token :
  (∀ tok, @jwtVerify http tok = @jwtVerify relay tok) →
  @requireAdmin http (mkReq m (Some ("Bearer " ++ token)%string) b)
  = if String.eqb token "" then VNull
    else @verifyAdminToken relay (VStr token).
Proof.
  intros Hkey. unfold requireAdmin. rewrite getToken_bearer.
  destruct (String.eqb token ""); [done|].
  rewrite (admin_check_eq (H := http)). unfold verifyAdminToken.
  by rewrite Hkey.
Qed.

Lemma requireAdmin_agrees_with_verifyAdminToken_witness :
  @requireAdmin auth_runtime (mkReq "POST" (Some "Bearer good") VNull)
  = @verifyAdminToken sample_runtime (VStr "good").
Proof.
  apply (requireAdmin_agrees_with_verifyAdminToken
           auth_runtime sample_runtime "POST" VNull "good").
  intros tok. reflexivity.
Defined.

Lemma bearer_token_round_trip_witness :
  authorization (mkReq "POST" (Some "Bearer good") VNull)
  = Some ("Bearer " ++ "good")%string.
Proof.
  apply (proj1 (proj2 bearer_token_round_trip)
           (mkReq "POST" (Some "Bearer good") VNull) "good").
  reflexivity.
Defined.

Lemma requireAdmin_fails_closed_witness :
  ∃ token payload,
    Some "Bearer good" = Some ("Bearer " ++ token)%string ∧
    token ≠ "" ∧
    jwtVerify (VStr token) = Some payload ∧
    optProp payload "role" = VStr "admin" ∧
    requireAdmin (mkReq "POST" (Some "Bearer good") VNull) = payload.
Proof.
  exact (requireAdmin_fails_closed (H := sample_runtime)
           (mkReq "POST" (Some "Bearer good") VNull) eq_refl).
Defined.

Lemma broadcast_status_reports_relay_state_witness :
  let res := broadcast_status_handler (mkReq "GET" None VUndefined)
               (Some (maktabBroadcast (run takeover init))) in
  status res = 200 ∧
  json res = Some (VObj [("isLive", VBool true); ("listenerCount", VNum 1)]).
Proof.
  exact (proj1 (broadcast_status_reports_relay_state (H := sample_runtime)
                  takeover (mkReq "GET" None VUndefined)) eq_refl).
Defined.

Lemma login_grants_token_only_for_configured_credentials_witness :
  status (login_handler sample_login) = 200 ∧
  json (login_handler sample_login) =
    Some (VObj [("token", VStr "good"); ("username", VStr "admin")]).
Proof.
  apply (proj1 (@login_grants_token_only_for_configured_credentials
                  sample_site sample_login)).
  repeat split.
Defined.

Lemma login_token_opens_transmitter_witness :
  let s' := step (run [Connection 9] init)
                 (Message 9 (txt_transmitter "good") false) in
  transmitterSocket s' = Some 9 ∧
  role_of s' 9 = RoleTransmitter ∧
  isBroadcasting s' = true ∧
  isLive (maktabBroadcast s') = true.
Proof.
  apply (@login_token_opens_transmitter sample_runtime sample_site
           sample_login
           (VObj [("token", VStr "good"); ("username", VStr "admin")])
           "good" 9 (txt_transmitter "good") (run [Connection 9] init)).
  - intros username. by exists (VObj [("role", VStr "admin")]).
  - reflexivity.
  - reflexivity.
  - reflexivity.
  - reflexivity.
Defined.

Lemma timings_change_only_by_admin_post_witness :
  method sample_update = "POST" ∧
  status (timings_handler "t1" sample_update (Some (boot_timings "t0"))).1 = 200 ∧
  ∃ token payload,
    authorization sample_update = Some ("Bearer " ++ token)%string ∧
    jwtVerify (VStr token) = Some payload ∧
    optProp payload "role" = VStr "admin".
Proof.
  apply (timings_change_only_by_admin_post (H := sample_runtime)
           "t1" sample_update (Some (boot_timings "t0"))).
  intros Heq.
  apply (f_equal (λ g, g ≫= (.!! "updatedAt"))) in Heq.
  vm_compute in Heq. discriminate Heq.
Defined.

Lemma timings_post_merges_fields_witness :
  ∃ g',
    timings_handler "t1" sample_update (Some (boot_timings "t0"))
    = (mkRes 200 (Some g'), Some g') ∧
    g' !! "updatedAt" = Some (VStr "t1") ∧
    g' !! "fajr" = Some (VStr "05:00") ∧
    g' !! "isha" = Some (VStr "19:45").
Proof.
  destruct (timings_post_merges_fields (H := sample_runtime)
              "t1" sample_update
              [("fajr", VStr "05:00"); ("updatedAt", VStr "forged")]
              (Some (boot_timings "t0")) eq_refl eq_refl eq_refl)
    as (g' & Hres & Hup & Hk & _).
  exists g'. split; [exact Hres|]. split; [exact Hup|]. split.
  - rewrite (Hk "fajr") by discriminate. reflexivity.
  - rewrite (Hk "isha") by discriminate. reflexivity.
Defined.

Lemma close_of_listener_in_slot `{Runtime} ws s :
  transmitterSocket s = Some ws →
  role_of s ws = RoleListener →
  let s' := step s (Close ws) in
  transmitterSocket s' = Some ws ∧
  isBroadcasting s' = isBroadcasting s ∧
  isLive (maktabBroadcast s') = isBroadcasting s ∧
  is_open s' ws = false ∧
  wire s' = wire s.
Proof.
  intros Hslot Hrole. cbv zeta. unfold step.
  rewrite on_close_listener_eq by done. cbv zeta.
  unfold emits, count_frames. simpl. rewrite Hslot.
  unfold is_open, readyState_of; simpl. rewrite lookup_insert_eq; simpl.
  by rewrite app_nil_r.
Qed.

(** C9, on the code.  A socket that holds the transmitter slot and sends
    register-as-listener has its role overwritten and is added to the
    listener set, but the slot, the live flag and the snapshot are left
    as they are: the socket is transmitter and listener at once.  When
    it then closes, the close handler takes the listener branch, so
    nothing is announced and the relay stays live with the closed socket
    in the slot. *)
Theorem transmitter_turned_listener_keeps_slot `{Runtime} ws data s :
  transmitterSocket s = Some ws →
  isBroadcasting s = true →
  request_of data = RegisterListener →
  let s1 := step s (Message ws data false) in
  let s2 := step s1 (Close ws) in
  (transmitterSocket s1 = Some ws ∧ ws ∈ listeners s1 ∧
   role_of s1 ws = RoleListener) ∧
  (transmitterSocket s2 = Some ws ∧ isBroadcasting s2 = true ∧
   isLive (maktabBroadcast s2) = true ∧ is_open s2 ws = false ∧
   wire s2 = wire s1).
Proof.
  intros Hslot Hlive Hreq. cbv zeta.
  assert (step s (Message ws data false) = register_listener ws s) as ->.
  { unfold step. by rewrite on_message_text, Hreq. }
  assert (transmitterSocket (register_listener ws s) = Some ws ∧
          ws ∈ listeners (register_listener ws s) ∧
          role_of (register_listener ws s) ws = RoleListener ∧
          isBroadcasting (register_listener ws s) = true)
    as (Hslot1 & Hin1 & Hrole1 & Hlive1).
  { rewrite register_listener_eq. cbv zeta.
    cbn -[Set_add count_frames greeting]. repeat split; [done| | |done].
    - apply elem_of_Set_add. by left.
    - unfold role_of; simpl. by rewrite lookup_insert_eq. }
  split; [done|].
  destruct (close_of_listener_in_slot ws _ Hslot1 Hrole1)
    as (? & Hb & Hl & ? & ?).
  rewrite Hlive1 in Hb, Hl. done.
Qed.

Lemma transmitter_turned_listener_keeps_slot_witness :
  let s := run [Connection 1; Message 1 (txt_transmitter "good") false] init in
  let s1 := step s (Message 1 txt_listener false) in
  let s2 := step s1 (Close 1) in
  (transmitterSocket s1 = Some 1 ∧ 1 ∈ listeners s1 ∧
   role_of s1 1 = RoleListener) ∧
  (transmitterSocket s2 = Some 1 ∧ isBroadcasting s2 = true ∧
   isLive (maktabBroadcast s2) = true ∧ is_open s2 1 = false ∧
   wire s2 = wire s1).
Proof.
  exact (transmitter_turned_listener_keeps_slot (H := sample_runtime)
           1 txt_listener
           (run [Connection 1; Message 1 (txt_transmitter "good") false] init)
           eq_refl eq_refl eq_refl).
Defined.
